(** * A shallow embedding of [grid.py] (sparse (Teff, logg) grid of model
    atmospheres) and the properties of its indexing code.

    Conventions of the embedding.
    - [Teff] and [logg] are read from the files as floating-point numbers; the
      grid code only compares them ([==], [<], [>], [>=]) and sorts them, so
      they are modelled as integers [Z]: a totally ordered type with decidable
      equality (finite floats without NaN embed into it in order).  NaN has
      no image in [Z]; the statements below are about constructed grids and
      about queries compared with the axis values, which leaves NaN out.
    - Python integers (indices, loop counters) are [Z]; numpy arrays are lists,
      2-D arrays lists of rows.  Indexing follows numpy: a negative index counts
      from the end, anything else out of range raises [IndexError].
    - A Python call either returns, raises, or loops: [result]. *)

From stdpp Require Import base numbers list list_numbers sorting strings.

Local Open Scope Z_scope.

(** ** Exceptions and the result monad *)

Inductive exn : Type :=
  | Exception (msg : string)   (* [raise Exception(msg)] *)
  | IndexError                 (* [raise IndexError(...)], numpy bounds errors *)
  | OtherError (cls : string). (* any other class, as [OSError] or [KeyError]
                                  raised while a file is read *)

Inductive result (A : Type) : Type :=
  | Ok (a : A)
  | Raise (e : exn)
  | Diverge.                   (* a loop that ran out of fuel *)

Arguments Ok {A} a.
Arguments Raise {A} e.
Arguments Diverge {A}.

#[global] Instance result_ret : MRet result := λ A a, Ok a.
#[global] Instance result_bind : MBind result := λ A B f m,
  match m with
  | Ok a => f a
  | Raise e => Raise e
  | Diverge => Diverge
  end.

(** [for x in xs: body], threading the state the body assigns to. *)
Fixpoint for_each {S A : Type} (xs : list A) (body : S → A → result S) (s : S)
  : result S :=
  match xs with
  | [] => Ok s
  | x :: xs' => s' ← body s x; for_each xs' body s'
  end.

(** Python's [range(lo, hi)]. *)
Definition range (lo hi : Z) : list Z := seqZ lo (hi - lo).

(** ** The numpy operations the grid uses *)

Definition len {A : Type} (a : list A) : Z := Z.of_nat (length a).

(** [a[k]] on one axis. *)
Definition np_getitem {A : Type} (a : list A) (k : Z) : result A :=
  let k' := if k <? 0 then k + len a else k in
  if (0 <=? k') && (k' <? len a) then
    match a !! Z.to_nat k' with
    | Some x => Ok x
    | None => Raise IndexError
    end
  else Raise IndexError.

(** [a[k] = v] on one axis. *)
Definition np_setitem {A : Type} (a : list A) (k : Z) (v : A) : result (list A) :=
  let k' := if k <? 0 then k + len a else k in
  if (0 <=? k') && (k' <? len a) then Ok (<[Z.to_nat k' := v]> a)
  else Raise IndexError.

(** [a[i, j]] and [a[i, j] = v] on a 2-D array. *)
Definition np_getitem2 {A : Type} (a : list (list A)) (ij : Z * Z) : result A :=
  row ← np_getitem a ij.1; np_getitem row ij.2.

Definition np_setitem2 {A : Type} (a : list (list A)) (ij : Z * Z) (v : A)
  : result (list (list A)) :=
  row ← np_getitem a ij.1;
  row' ← np_setitem row ij.2 v;
  np_setitem a ij.1 row'.

(** [np.empty([n, m], dtype=object)]: every slot holds [None];
    [np.zeros([n, m], dtype=bool)]: every slot holds [False]. *)
Definition np_empty {A : Type} (n m : Z) : list (list (option A)) :=
  replicate (Z.to_nat n) (replicate (Z.to_nat m) None).

Definition np_zeros (n m : Z) : list (list bool) :=
  replicate (Z.to_nat n) (replicate (Z.to_nat m) false).

(** [np.where(x == axis)[0]]: the indices at which [axis] holds [x]. *)
Fixpoint where_from (k : Z) (x : Z) (axis : list Z) : list Z :=
  match axis with
  | [] => []
  | a :: axis' =>
      if x =? a then k :: where_from (k + 1) x axis'
      else where_from (k + 1) x axis'
  end.

Definition np_where_eq (x : Z) (axis : list Z) : list Z := where_from 0 x axis.

(** [x in axis]. *)
Definition np_contains (x : Z) (axis : list Z) : bool :=
  existsb (Z.eqb x) axis.

(** [np.unique(ar)]: sort, then keep each element that differs from the one
    before it (and the first). *)
Fixpoint keep_changes (prev : Z) (l : list Z) : list Z :=
  match l with
  | [] => []
  | x :: l' => if x =? prev then keep_changes x l' else x :: keep_changes x l'
  end.

Definition np_unique (ar : list Z) : list Z :=
  match merge_sort Z.le ar with
  | [] => []
  | x :: l => x :: keep_changes x l
  end.

(** ** Node *)

(** A node after [Node.__init__] has read its file: the file name, the two
    attributes and the data set.  Reading the file (h5py) is outside the
    embedding, so the grid is built from the list of nodes already read. *)
Record Node : Type := mkNode {
  filename : string;
  Teff : Z;
  logg : Z;
  data : list Z
}.

#[global] Instance Node_eq_dec : EqDecision Node.
Proof. solve_decision. Defined.

(** [isinstance(c, Node)] on a slot of an object array. *)
Definition isinstance_Node (c : option Node) : bool :=
  match c with Some _ => true | None => false end.

(** ** Grid *)

Definition stencil : Type := list (list bool).

Record Grid : Type := mkGrid {
  Teff_axis : list Z;
  logg_axis : list Z;
  n_Teff : Z;
  n_logg : Z;
  nodes : list (list (option Node));
  neighbors : list (list (option stencil));
  debug : bool
}.

(** [Grid.find_neighbors(ij)] (the [show] flag only prints). *)
Definition find_neighbors (self : Grid) (ij : Z * Z) : result stencil :=
  for_each (range (-1) 2) (λ stencil k,
    for_each (range (-1) 2) (λ stencil h,
      let j_Teff := ij.1 + h in
      let j_logg := ij.2 + k in
      if ((0 <=? j_Teff) && (j_Teff <? n_Teff self)) &&
         ((0 <=? j_logg) && (j_logg <? n_logg self)) then
        c ← np_getitem2 (nodes self) (j_Teff, j_logg);
        if isinstance_Node c then np_setitem2 stencil (h + 1, k + 1) true
        else Ok stencil
      else Ok stencil) stencil) (np_zeros 3 3).

(** The placement loop of [Grid.__init__]: every node goes to the cell of its
    axis indices; nothing is checked before the slot is assigned. *)
Definition place_nodes (T_axis g_axis : list Z) (nodes_list : list Node)
  (arr : list (list (option Node))) : result (list (list (option Node))) :=
  for_each nodes_list (λ arr node,
    i_Teff ← np_getitem (np_where_eq (Teff node) T_axis) 0;
    i_logg ← np_getitem (np_where_eq (logg node) g_axis) 0;
    np_setitem2 arr (i_Teff, i_logg) (Some node)) arr.

(** The neighbours loop of [Grid.__init__]; [self] already has its axes and
    its nodes array. *)
Definition fill_neighbors (self : Grid) (arr : list (list (option stencil)))
  : result (list (list (option stencil))) :=
  for_each (range 0 (n_logg self)) (λ arr i_logg,
    for_each (range 0 (n_Teff self)) (λ arr i_Teff,
      st ← find_neighbors self (i_Teff, i_logg);
      np_setitem2 arr (i_Teff, i_logg) (Some st)) arr) arr.

(** [Grid.__init__(filenames, debug)], from the nodes read from [filenames]. *)
Definition Grid_init (nodes_list : list Node) (debug : bool) : result Grid :=
  if len nodes_list =? 0 then Raise (Exception "Empty grid")
  else
    let T_axis := np_unique (Teff <$> nodes_list) in
    let g_axis := np_unique (logg <$> nodes_list) in
    let n_T := len T_axis in
    let n_g := len g_axis in
    arr ← place_nodes T_axis g_axis nodes_list (np_empty n_T n_g);
    let self := mkGrid T_axis g_axis n_T n_g arr (np_empty n_T n_g) debug in
    nb ← fill_neighbors self (np_empty n_T n_g);
    Ok (mkGrid T_axis g_axis n_T n_g arr nb debug).

(** [Grid.lookup(Teff, logg)]; [None] is Python's [None]. *)
Definition lookup (self : Grid) (T g : Z) : result (option Node) :=
  if np_contains T (Teff_axis self) && np_contains g (logg_axis self) then
    i_Teff ← np_getitem (np_where_eq T (Teff_axis self)) 0;
    i_logg ← np_getitem (np_where_eq g (logg_axis self)) 0;
    node ← np_getitem2 (nodes self) (i_Teff, i_logg);
    if isinstance_Node node then Ok node else Ok None
  else Ok None.

(** The [while] loop of [locate_x]; each turn uses one unit of [fuel]. *)
Fixpoint bisect (fuel : nat) (x : Z) (x_axis : list Z) (k_0 k_1 : Z) : result Z :=
  if k_1 - k_0 >? 1 then
    match fuel with
    | O => Diverge
    | S fuel' =>
        let k := (k_0 + k_1) / 2 in
        a ← np_getitem x_axis k;
        if x >=? a then bisect fuel' x x_axis k k_1
        else bisect fuel' x x_axis k_0 k
    end
  else Ok k_0.

(** [locate_x(x, x_axis)], the inner function of [Grid.locate]. *)
Definition locate_x (x : Z) (x_axis : list Z) : result Z :=
  first ← np_getitem x_axis 0;
  if x =? first then Ok 0
  else
    last ← np_getitem x_axis (-1);
    if x =? last then Ok (len x_axis - 2)
    else bisect (S (length x_axis)) x x_axis (-1) (len x_axis).

(** The range test [(x < x_axis[0]) or (x > x_axis[-1])] of [Grid.locate];
    [or] evaluates its right operand only when the left one is false. *)
Definition outside_range (x : Z) (x_axis : list Z) : result bool :=
  first ← np_getitem x_axis 0;
  if x <? first then Ok true
  else
    last ← np_getitem x_axis (-1);
    Ok (x >? last).

(** [Grid.locate(Teff, logg)].  With [debug] set the located interval is
    printed, which reads [axis[i]] and [axis[i+1]] on both axes. *)
Definition locate (self : Grid) (T g : Z) : result (Z * Z) :=
  T_outside ← outside_range T (Teff_axis self);
  if (T_outside : bool) then Raise IndexError
  else
    g_outside ← outside_range g (logg_axis self);
    if (g_outside : bool) then Raise IndexError
    else
      i ← locate_x T (Teff_axis self);
      j ← locate_x g (logg_axis self);
      if debug self then
        _ ← np_getitem (Teff_axis self) i;
        _ ← np_getitem (Teff_axis self) (i + 1);
        _ ← np_getitem (logg_axis self) j;
        _ ← np_getitem (logg_axis self) (j + 1);
        Ok (i, j)
      else Ok (i, j).

(** [Grid.find_derivs(ij, show)].  The method returns nothing; what it reports
    is what it prints, modelled as the rows of printed stencil entries (no rows
    when [show] is off). *)
Definition find_derivs (self : Grid) (ij : Z * Z) (show : bool)
  : result (list (list bool)) :=
  _ ← np_getitem (Teff_axis self) ij.1;
  _ ← np_getitem (logg_axis self) ij.2;
  _ ← np_getitem2 (nodes self) ij;
  nbrs ← find_neighbors self ij;
  for_each [-1; 1] (λ out j,
    row ← for_each [-1; 1] (λ row i,
      _ ← np_getitem (Teff_axis self) (ij.1 + i);
      _ ← np_getitem (logg_axis self) (ij.2 + j);
      if show then
        b ← np_getitem2 nbrs (i + 1, j + 1);
        Ok (row ++ [b])
      else Ok row) [];
    if show then Ok (out ++ [row]) else Ok out) [].

(** [Grid.show_topology()].  What is written to standard output is modelled
    as the list of the texts of the successive [print] calls:
    [print("X", end=' ')] writes ["X "], [print()] writes a line feed. *)
Definition line_feed : string := String (Ascii.ascii_of_nat 10) EmptyString.

Definition show_topology (self : Grid) : result (list string) :=
  for_each (range 0 (n_logg self)) (λ out i_logg,
    out ← for_each (range 0 (n_Teff self)) (λ out i_Teff,
      c ← np_getitem2 (nodes self) (i_Teff, i_logg);
      if isinstance_Node c then Ok (out ++ ["X "])
      else Ok (out ++ [". "])) out;
    Ok (out ++ [line_feed; line_feed])) [].

(** The script ([if __name__ == '__main__']), from the nodes read from the
    command-line file names.  It returns what [show_topology] wrote and what
    [find_derivs] reported; the [except IndexError] handler prints a message
    and raises the exception again. *)
Definition main (nodes_list : list Node)
  : result (list string * list (list bool)) :=
  if len nodes_list =? 0 then Raise (Exception "Syntax: grid.py [filename list]")
  else
    grid ← Grid_init nodes_list true;
    topology ← show_topology grid;
    match find_derivs grid (7, 3) true with
    | Ok report => Ok (topology, report)
    | Raise IndexError => Raise IndexError
    | Raise e => Raise e
    | Diverge => Diverge
    end.

(** The script from its command line.  [Node(filename)] reads a file and can
    fail (no such file, no ['Teff'] attribute); it is a parameter here.
    [Grid(filenames, ...)] reads the files in order, before the [try] block,
    so a failure to read ends the script with the reader's exception. *)
Fixpoint read_nodes (Node_init : string → result Node) (filenames : list string)
  : result (list Node) :=
  match filenames with
  | [] => Ok []
  | filename :: filenames' =>
      node ← Node_init filename;
      nodes_list ← read_nodes Node_init filenames';
      Ok (node :: nodes_list)
  end.

Definition script (Node_init : string → result Node) (filenames : list string)
  : result (list string * list (list bool)) :=
  if len filenames =? 0 then Raise (Exception "Syntax: grid.py [filename list]")
  else
    nodes_list ← read_nodes Node_init filenames;
    grid ← Grid_init nodes_list true;
    topology ← show_topology grid;
    match find_derivs grid (7, 3) true with
    | Ok report => Ok (topology, report)
    | Raise IndexError => Raise IndexError
    | Raise e => Raise e
    | Diverge => Diverge
    end.

(** ** The concrete scenario: a 4 x 4 grid with one hole *)

Definition node_at (T g : Z) : Node := mkNode "model.h5" T g [].

Definition scenario_nodes : list Node :=
  T ← [10000; 20000; 30000; 40000];
  g ← [30; 35; 40; 45];
  if (T =? 20000) && (g =? 35) then [] else [node_at T g].

Definition empty_grid : Grid := mkGrid [] [] 0 0 [] [] false.

(** The grid built from [scenario_nodes] (the gravities are in tenths). *)
Definition scenario_grid (dbg : bool) : Grid :=
  match Grid_init scenario_nodes dbg with
  | Ok self => self
  | _ => empty_grid
  end.

(** A grid of one node, and two different files with the same attributes. *)
Definition single_node : list Node := [node_at 1 1].

Definition single_grid (dbg : bool) : Grid :=
  match Grid_init single_node dbg with
  | Ok self => self
  | _ => empty_grid
  end.

Definition dup_nodes : list Node :=
  [mkNode "a.h5" 1 1 [7]; mkNode "b.h5" 1 1 [8]].

(** ** Total views of the arrays, used to state the properties *)

(** The slot at [(i, j)] of a 2-D array, when both indices are in range
    (no wrap-around: a negative index has no slot). *)
Definition at2 {A : Type} (a : list (list A)) (i j : Z) : option A :=
  if (0 <=? i) && (0 <=? j) then
    row ← a !! Z.to_nat i; row !! Z.to_nat j
  else None.

(** The node held by cell [(i, j)], if any. *)
Definition cell (self : Grid) (i j : Z) : option Node :=
  c ← at2 (nodes self) i j; c.

(** Cell [(i, j)] lies within the axis bounds and holds a node. *)
Definition occupied (self : Grid) (i j : Z) : bool :=
  ((0 <=? i) && (i <? n_Teff self)) && ((0 <=? j) && (j <? n_logg self))
  && isinstance_Node (cell self i j).

(** Entry [[a, b]] of a mask. *)
Definition entry (st : stencil) (a b : Z) : bool :=
  default false (at2 st a b).

(** The 3 x 3 occupancy mask around [(i, j)]: row [dh + 1], column [dk + 1]
    tells whether cell [(i + dh, j + dk)] is occupied. *)
Definition mask_of (self : Grid) (i j : Z) : stencil :=
  (λ dh, (λ dk, occupied self (i + dh) (j + dk)) <$> [-1; 0; 1]) <$> [-1; 0; 1].

(** A 2-D array of [n] rows of [m] slots. *)
Definition shaped {A : Type} (n m : Z) (a : list (list A)) : Prop :=
  len a = n ∧ Forall (λ row, len row = m) a.

(** The last node of a list with the coordinates [(T, g)]. *)
Fixpoint last_at (T g : Z) (l : list Node) : option Node :=
  match l with
  | [] => None
  | nd :: l' =>
      match last_at T g l' with
      | Some nd' => Some nd'
      | None => if (Teff nd =? T) && (logg nd =? g) then Some nd else None
      end
  end.


(** The text of the topology display: one line per gravity, one mark per
    temperature, two line feeds after each line. *)
Definition topology_text (self : Grid) : list string :=
  j ← range 0 (n_logg self);
  ((λ i, if occupied self i j then "X " else ". ") <$> range 0 (n_Teff self))
    ++ [line_feed; line_feed].

(** A full grid of 9 temperatures and 5 gravities. *)
Definition full_nodes : list Node :=
  T ← seqZ 1 9; g ← seqZ 1 5; [node_at T g].

Definition full_grid (dbg : bool) : Grid :=
  match Grid_init full_nodes dbg with
  | Ok self => self
  | _ => empty_grid
  end.

(** The (temperature, gravity) pair of a node. *)
Definition coords (nd : Node) : Z * Z := (Teff nd, logg nd).

(** The boundary law for one axis: [k] is the interval index the law
    prescribes for the query [x]. *)
Definition boundary_law (axis : list Z) (x k : Z) : Prop :=
  (axis !! 0%nat = Some x → k = 0) ∧
  (last axis = Some x → k = len axis - 2) ∧
  (∀ (k' : nat) (a b : Z),
     axis !! k' = Some a → axis !! S k' = Some b → a < x < b → k = Z.of_nat k').

(** What [Grid.__init__] establishes for the grid it returns: the state of a
    grid constructed from [nodes_list]. *)
Record constructed (nodes_list : list Node) (dbg : bool) (self : Grid) : Prop := {
  c_Teff_axis : Teff_axis self = np_unique (Teff <$> nodes_list);
  c_logg_axis : logg_axis self = np_unique (logg <$> nodes_list);
  c_n_Teff : n_Teff self = len (Teff_axis self);
  c_n_logg : n_logg self = len (logg_axis self);
  c_nodes : shaped (n_Teff self) (n_logg self) (nodes self);
  c_cell : ∀ (i j : nat) (T g : Z),
    Teff_axis self !! i = Some T → logg_axis self !! j = Some g →
    cell self (Z.of_nat i) (Z.of_nat j) = last_at T g nodes_list;
  c_neighbors_shaped : shaped (n_Teff self) (n_logg self) (neighbors self);
  c_neighbors : ∀ i j : Z,
    0 ≤ i < n_Teff self → 0 ≤ j < n_logg self →
    at2 (neighbors self) i j = Some (Some (mask_of self i j));
  c_debug : debug self = dbg
}.

(** * Properties *)

(** ** The result monad *)

Lemma bind_Ok_l {A B : Type} (a : A) (f : A → result B) : (Ok a ≫= f) = f a.
Proof. done. Qed.

(** ** numpy indexing *)

Lemma len_nonneg {A : Type} (a : list A) : 0 ≤ len a.
Proof. unfold len. lia. Qed.

Lemma np_getitem_nonneg {A : Type} (a : list A) (k : Z) (x : A) :
  0 ≤ k → a !! Z.to_nat k = Some x → np_getitem a k = Ok x.
Proof.
  intros Hk Hx. unfold np_getitem.
  pose proof (lookup_lt_Some _ _ _ Hx) as Hlt.
  destruct (Z.ltb_spec k 0); [lia|].
  destruct (Z.leb_spec 0 k); [|lia].
  destruct (Z.ltb_spec k (len a)); [|unfold len in *; lia].
  simpl. by rewrite Hx.
Qed.

Lemma np_getitem_inrange {A : Type} (a : list A) (k : Z) :
  0 ≤ k < len a → ∃ x, a !! Z.to_nat k = Some x ∧ np_getitem a k = Ok x.
Proof.
  intros Hk. destruct (lookup_lt_is_Some_2 a (Z.to_nat k)) as [x Hx].
  { unfold len in Hk. lia. }
  exists x. split; [done|]. apply np_getitem_nonneg; [lia|done].
Qed.

Lemma np_getitem_neg {A : Type} (a : list A) (k : Z) (x : A) :
  k < 0 → a !! Z.to_nat (k + len a) = Some x → 0 ≤ k + len a →
  np_getitem a k = Ok x.
Proof.
  intros Hk Hx Hk'. unfold np_getitem.
  destruct (Z.ltb_spec k 0); [|lia].
  destruct (Z.leb_spec 0 (k + len a)); [|lia].
  destruct (Z.ltb_spec (k + len a) (len a)); [|lia].
  simpl. by rewrite Hx.
Qed.

Lemma np_getitem_last {A : Type} (a : list A) (x : A) :
  np_getitem (a ++ [x]) (-1) = Ok x.
Proof.
  assert (len (a ++ [x]) = len a + 1) as Hlen.
  { unfold len. rewrite length_app. simpl. lia. }
  apply np_getitem_neg; [lia| |pose proof (len_nonneg a); lia].
  rewrite Hlen. replace (Z.to_nat (-1 + (len a + 1))) with (length a)
    by (unfold len; lia).
  apply list_lookup_middle. done.
Qed.

Lemma np_getitem_out {A : Type} (a : list A) (k : Z) :
  len a ≤ k → np_getitem a k = Raise IndexError.
Proof.
  intros Hk. unfold np_getitem. pose proof (len_nonneg a).
  destruct (Z.ltb_spec k 0); [lia|].
  destruct (Z.ltb_spec k (len a)); [lia|]. by rewrite andb_false_r.
Qed.

Lemma np_setitem_inrange {A : Type} (a : list A) (k : Z) (v : A) :
  0 ≤ k < len a → np_setitem a k v = Ok (<[Z.to_nat k := v]> a).
Proof.
  intros Hk. unfold np_setitem.
  destruct (Z.ltb_spec k 0); [lia|].
  destruct (Z.leb_spec 0 k); [|lia].
  by destruct (Z.ltb_spec k (len a)); [|lia].
Qed.

Section arrays.
Context {A : Type}.
Implicit Types (a : list (list A)) (n m i j : Z).

Lemma at2_inrange a n m i j :
  shaped n m a → 0 ≤ i < n → 0 ≤ j < m →
  ∃ x, at2 a i j = Some x ∧ np_getitem2 a (i, j) = Ok x.
Proof.
  intros [Hn Hm] Hi Hj. unfold at2, np_getitem2. simpl.
  destruct (np_getitem_inrange a i) as (row & Hrow & ->); [lia|]. simpl.
  assert (len row = m) as Hlen.
  { rewrite Forall_forall in Hm. apply Hm. by eapply list_elem_of_lookup_2. }
  destruct (np_getitem_inrange row j) as (x & Hx & ->); [lia|].
  exists x. split; [|done].
  destruct (Z.leb_spec 0 i); [|lia]. destruct (Z.leb_spec 0 j); [|lia].
  simpl. rewrite Hrow. simpl. done.
Qed.

Lemma at2_outside a n m i j :
  shaped n m a → ¬ (0 ≤ i < n ∧ 0 ≤ j < m) → at2 a i j = None.
Proof.
  intros [Hn Hm] Hout. unfold at2.
  destruct (Z.leb_spec 0 i); [|done]. destruct (Z.leb_spec 0 j); [|done].
  simpl. destruct (a !! Z.to_nat i) as [row|] eqn:Hrow; [|done]. simpl.
  assert (len row = m) as Hlen.
  { rewrite Forall_forall in Hm. apply Hm. by eapply list_elem_of_lookup_2. }
  apply lookup_lt_Some in Hrow. apply lookup_ge_None.
  unfold len in *. lia.
Qed.

Lemma np_setitem2_inrange a n m i j (v : A) :
  shaped n m a → 0 ≤ i < n → 0 ≤ j < m →
  ∃ a', np_setitem2 a (i, j) v = Ok a' ∧ shaped n m a' ∧
        at2 a' i j = Some v ∧
        ∀ i' j', (i', j') ≠ (i, j) → at2 a' i' j' = at2 a i' j'.
Proof.
  intros [Hn Hm] Hi Hj. unfold np_setitem2. simpl.
  destruct (np_getitem_inrange a i) as (row & Hrow & ->); [lia|]. simpl.
  assert (len row = m) as Hlen.
  { rewrite Forall_forall in Hm. apply Hm. by eapply list_elem_of_lookup_2. }
  rewrite np_setitem_inrange by lia. simpl.
  rewrite np_setitem_inrange by lia.
  eexists. split; [done|]. split; [|split].
  - split.
    + unfold len. rewrite length_insert. done.
    + apply Forall_insert; [done|]. unfold len. by rewrite length_insert.
  - unfold at2. destruct (Z.leb_spec 0 i); [|lia]. destruct (Z.leb_spec 0 j); [|lia].
    simpl. rewrite list_lookup_insert_eq by (unfold len in *; lia). simpl.
    apply list_lookup_insert_eq. unfold len in *; lia.
  - intros i' j' Hne. unfold at2.
    destruct (Z.leb_spec 0 i'); [|done]. destruct (Z.leb_spec 0 j'); [|done].
    simpl. destruct (decide (Z.to_nat i' = Z.to_nat i)) as [Heq|Hneq].
    + rewrite Heq. rewrite list_lookup_insert_eq by (unfold len in *; lia).
      rewrite Hrow. simpl. apply list_lookup_insert_ne.
      intros Hj'. apply Hne. f_equal; lia.
    + by rewrite list_lookup_insert_ne.
Qed.
End arrays.

Lemma np_empty_shaped {A : Type} (n m : Z) :
  0 ≤ n → 0 ≤ m → shaped n m (@np_empty A n m).
Proof.
  intros Hn Hm. unfold np_empty. split.
  - unfold len. rewrite length_replicate. lia.
  - apply Forall_replicate. unfold len. rewrite length_replicate. lia.
Qed.

Lemma at2_np_empty {A : Type} (n m i j : Z) :
  0 ≤ i < n → 0 ≤ j < m → at2 (@np_empty A n m) i j = Some None.
Proof.
  intros Hi Hj. unfold at2, np_empty.
  destruct (Z.leb_spec 0 i); [|lia]. destruct (Z.leb_spec 0 j); [|lia]. simpl.
  rewrite lookup_replicate_2 by lia. simpl.
  apply lookup_replicate_2. lia.
Qed.

(** ** Axes: [np.unique], membership and [np.where] *)

Lemma keep_changes_spec (p : Z) (l : list Z) :
  StronglySorted Z.le (p :: l) →
  StronglySorted Z.lt (p :: keep_changes p l) ∧
  ∀ y, y ∈ p :: keep_changes p l ↔ y ∈ p :: l.
Proof.
  revert p. induction l as [|x l IH]; intros p Hs; simpl.
  - split; [|done]. repeat constructor.
  - apply StronglySorted_inv in Hs as [Hs Hp].
    apply Forall_cons in Hp as [Hpx Hp].
    destruct (Z.eqb_spec x p) as [->|Hne].
    + destruct (IH p) as [IH1 IH2].
      { constructor; [by apply StronglySorted_inv in Hs as [? _]|done]. }
      split; [done|]. intros y. rewrite IH2, !elem_of_cons. tauto.
    + destruct (IH x Hs) as [IH1 IH2]. split.
      * constructor; [done|]. apply Forall_forall. intros y Hy.
        apply IH2 in Hy. apply StronglySorted_inv in Hs as [_ Hx].
        rewrite Forall_forall in Hx.
        apply elem_of_cons in Hy as [->|Hy]; [lia|]. specialize (Hx y Hy). lia.
      * intros y. rewrite !(elem_of_cons _ y p), IH2. done.
Qed.

Lemma np_unique_sorted (l : list Z) : StronglySorted Z.lt (np_unique l).
Proof.
  unfold np_unique.
  pose proof (StronglySorted_merge_sort Z.le l) as Hs.
  destruct (merge_sort Z.le l) as [|x s]; [constructor|].
  by apply keep_changes_spec.
Qed.

Lemma np_unique_elem_of (l : list Z) (y : Z) : y ∈ np_unique l ↔ y ∈ l.
Proof.
  unfold np_unique.
  pose proof (StronglySorted_merge_sort Z.le l) as Hs.
  pose proof (merge_sort_Permutation Z.le l) as Hp.
  transitivity (y ∈ merge_sort Z.le l); [|by rewrite Hp].
  destruct (merge_sort Z.le l) as [|x s]; [done|].
  by apply keep_changes_spec.
Qed.

Lemma StronglySorted_lt_NoDup (l : list Z) : StronglySorted Z.lt l → NoDup l.
Proof.
  induction 1 as [|x l _ IH Hx]; constructor; [|done].
  intros Hin. rewrite Forall_forall in Hx. specialize (Hx x Hin). lia.
Qed.

Lemma StronglySorted_lt_le (l : list Z) :
  StronglySorted Z.lt l → StronglySorted Z.le l.
Proof.
  induction 1 as [|x l _ IH Hx]; constructor; [done|].
  eapply Forall_impl; [done|]. simpl. lia.
Qed.

Lemma np_unique_NoDup (l : list Z) : NoDup (np_unique l).
Proof. apply StronglySorted_lt_NoDup, np_unique_sorted. Qed.


Lemma np_contains_elem_of (x : Z) (axis : list Z) :
  np_contains x axis = true ↔ x ∈ axis.
Proof.
  unfold np_contains. rewrite existsb_exists. split.
  - intros (y & Hy & Heq). apply Z.eqb_eq in Heq as ->. by apply list_elem_of_In.
  - intros Hx. exists x. split; [by apply list_elem_of_In|apply Z.eqb_refl].
Qed.

Lemma where_from_head (axis : list Z) (k : Z) (i : nat) (x : Z) :
  NoDup axis → axis !! i = Some x →
  ∃ r, where_from k x axis = (k + Z.of_nat i) :: r.
Proof.
  revert k i. induction axis as [|a axis IH]; intros k i Hnd Hi; [done|].
  apply NoDup_cons in Hnd as [Ha Hnd]. destruct i as [|i]; simpl in *.
  - injection Hi as ->. rewrite Z.eqb_refl. rewrite Z.add_0_r. eauto.
  - destruct (Z.eqb_spec x a) as [->|_].
    + exfalso. apply Ha. by eapply list_elem_of_lookup_2.
    + destruct (IH (k + 1) i Hnd Hi) as [r ->]. exists r. f_equal. lia.
Qed.

(** On an axis without duplicates, [np.where(x == axis)[0][0]] is the index
    of [x]. *)
Lemma np_where_index (axis : list Z) (i : nat) (x : Z) :
  NoDup axis → axis !! i = Some x →
  np_getitem (np_where_eq x axis) 0 = Ok (Z.of_nat i).
Proof.
  intros Hnd Hi. unfold np_where_eq.
  destruct (where_from_head axis 0 i x Hnd Hi) as [r ->]. done.
Qed.

Lemma NoDup_lookup_index (axis : list Z) (i j : nat) (x : Z) :
  NoDup axis → axis !! i = Some x → axis !! j = Some x → i = j.
Proof. intros Hnd Hi Hj. by eapply NoDup_lookup. Qed.

(** ** The placement loop *)

Lemma place_nodes_spec (T_axis g_axis : list Z) (l : list Node)
    (arr : list (list (option Node))) :
  NoDup T_axis → NoDup g_axis →
  shaped (len T_axis) (len g_axis) arr →
  Forall (λ nd, Teff nd ∈ T_axis ∧ logg nd ∈ g_axis) l →
  ∃ arr', place_nodes T_axis g_axis l arr = Ok arr' ∧
    shaped (len T_axis) (len g_axis) arr' ∧
    ∀ (i j : nat) (T g : Z),
      T_axis !! i = Some T → g_axis !! j = Some g →
      (c ← at2 arr' (Z.of_nat i) (Z.of_nat j); c) =
        match last_at T g l with
        | Some nd => Some nd
        | None => c ← at2 arr (Z.of_nat i) (Z.of_nat j); c
        end.
Proof.
  intros HT Hg Harr Hl. unfold place_nodes. revert arr Harr.
  induction Hl as [|nd l [HndT Hndg] _ IH]; intros arr Harr; simpl.
  { exists arr. done. }
  apply list_elem_of_lookup_1 in HndT as [i0 Hi0].
  apply list_elem_of_lookup_1 in Hndg as [j0 Hj0].
  rewrite (np_where_index T_axis i0) by done. simpl.
  rewrite (np_where_index g_axis j0) by done. simpl.
  pose proof (lookup_lt_Some _ _ _ Hi0) as Hi0lt.
  pose proof (lookup_lt_Some _ _ _ Hj0) as Hj0lt.
  destruct (np_setitem2_inrange arr (len T_axis) (len g_axis)
              (Z.of_nat i0) (Z.of_nat j0) (Some nd))
    as (arr1 & -> & Harr1 & Hset & Hother); [done|unfold len; lia..|]. simpl.
  destruct (IH arr1 Harr1) as (arr' & -> & Harr' & Hcells).
  exists arr'. split; [done|]. split; [done|].
  intros i j T g Hi Hj. rewrite (Hcells i j T g Hi Hj).
  destruct (last_at T g l) as [nd'|]; [done|].
  destruct (Z.eqb_spec (Teff nd) T) as [HeqT|HneT]; simpl.
  - destruct (Z.eqb_spec (logg nd) g) as [Heqg|Hneg]; simpl.
    + subst T g.
      rewrite (NoDup_lookup_index _ _ _ _ HT Hi Hi0).
      rewrite (NoDup_lookup_index _ _ _ _ Hg Hj Hj0). by rewrite Hset.
    + rewrite Hother; [done|]. intros [= Hii Hjj].
      apply Nat2Z.inj in Hjj. subst j. congruence.
  - rewrite Hother; [done|]. intros [= Hii Hjj].
    apply Nat2Z.inj in Hii. subst i. congruence.
Qed.

(** ** Neighbour stencils *)

Lemma for_each_ext {S A : Type} (body body' : S → A → result S) (xs : list A) (s : S) :
  (∀ s x, body s x = body' s x) → for_each xs body s = for_each xs body' s.
Proof.
  intros Hb. revert s. induction xs as [|x xs IH]; intros s; simpl; [done|].
  rewrite Hb. destruct (body' s x); simpl; auto.
Qed.

(** One turn of the inner loop of [find_neighbors]: the bounds test and the
    type test together are [occupied]. *)
Lemma find_neighbors_turn (self : Grid) (a b : Z) (st : stencil) (p : Z * Z) :
  shaped (n_Teff self) (n_logg self) (nodes self) →
  (if ((0 <=? a) && (a <? n_Teff self)) && ((0 <=? b) && (b <? n_logg self)) then
     c ← np_getitem2 (nodes self) (a, b);
     if isinstance_Node c then np_setitem2 st p true else Ok st
   else Ok st)
  = if occupied self a b then np_setitem2 st p true else Ok st.
Proof.
  intros Hsh. unfold occupied, cell.
  destruct (Z.leb_spec 0 a); simpl; [|done].
  destruct (Z.ltb_spec a (n_Teff self)); simpl; [|done].
  destruct (Z.leb_spec 0 b); simpl; [|done].
  destruct (Z.ltb_spec b (n_logg self)); simpl; [|done].
  destruct (at2_inrange (nodes self) _ _ a b Hsh) as (x & -> & ->); [lia..|].
  done.
Qed.

Lemma find_neighbors_spec (self : Grid) (i j : Z) :
  shaped (n_Teff self) (n_logg self) (nodes self) →
  find_neighbors self (i, j) = Ok (mask_of self i j).
Proof.
  intros Hsh. unfold find_neighbors.
  rewrite (for_each_ext _ (λ st k, for_each (range (-1) 2) (λ st h,
    if occupied self (i + h) (j + k) then np_setitem2 st (h + 1, k + 1) true
    else Ok st) st)).
  2:{ intros st k. apply for_each_ext. intros st' h. simpl.
      by apply find_neighbors_turn. }
  change (range (-1) 2) with [-1; 0; 1].
  unfold mask_of. cbn [for_each fmap list_fmap].
  repeat match goal with
  | |- context [occupied self ?a ?b] =>
      let o := fresh "o" in
      generalize (occupied self a b); intros o
  end.
  by destruct o, o0, o1, o2, o3, o4, o5, o6, o7.
Qed.

(** A loop whose body never fails, with an invariant that follows the
    elements already visited. *)
Lemma for_each_progress {S A : Type} (I : list A → S → Prop)
    (body : S → A → result S) (xs : list A) (s : S) :
  I [] s →
  (∀ visited x s, x ∈ xs → I visited s →
     ∃ s', body s x = Ok s' ∧ I (visited ++ [x]) s') →
  ∃ s', for_each xs body s = Ok s' ∧ I xs s'.
Proof.
  intros Hs Hbody.
  cut (∀ pre s, I pre s → ∃ s', for_each xs body s = Ok s' ∧ I (pre ++ xs) s').
  { intros Hcut. by apply (Hcut []). }
  clear s Hs. induction xs as [|x xs IH]; intros pre s Hs; simpl.
  - exists s. by rewrite app_nil_r.
  - destruct (Hbody pre x s) as (s1 & -> & Hs1); [left|done|]. simpl.
    destruct (IH (λ v y s Hy, Hbody v y s (list_elem_of_further _ _ _ Hy))
                 (pre ++ [x]) s1 Hs1) as (s' & -> & Hs').
    exists s'. split; [done|]. by rewrite <- app_assoc in Hs'.
Qed.

Lemma elem_of_range (lo hi x : Z) : x ∈ range lo hi ↔ lo ≤ x < hi.
Proof. unfold range. rewrite elem_of_seqZ. lia. Qed.

Lemma fill_neighbors_spec (self : Grid) (arr : list (list (option stencil))) :
  shaped (n_Teff self) (n_logg self) (nodes self) →
  shaped (n_Teff self) (n_logg self) arr →
  ∃ nb, fill_neighbors self arr = Ok nb ∧
    shaped (n_Teff self) (n_logg self) nb ∧
    ∀ i j, 0 ≤ i < n_Teff self → 0 ≤ j < n_logg self →
      at2 nb i j = Some (Some (mask_of self i j)).
Proof.
  intros Hnodes Harr. unfold fill_neighbors.
  set (filled (a : list (list (option stencil))) i j :=
         at2 a i j = Some (Some (mask_of self i j))).
  destruct (for_each_progress
    (λ cols a, shaped (n_Teff self) (n_logg self) a ∧
       ∀ i j, 0 ≤ i < n_Teff self → j ∈ cols → filled a i j)
    (λ arr i_logg,
       for_each (range 0 (n_Teff self)) (λ arr i_Teff,
         st ← find_neighbors self (i_Teff, i_logg);
         np_setitem2 arr (i_Teff, i_logg) (Some st)) arr)
    (range 0 (n_logg self)) arr) as (nb & Hnb & Hsh & Hfilled).
  - split; [done|]. intros i j _ Hj. by apply elem_of_nil in Hj.
  - intros cols j a Hj [Ha Hcols]. apply elem_of_range in Hj.
    destruct (for_each_progress
      (λ rows a, shaped (n_Teff self) (n_logg self) a ∧
         (∀ i j', 0 ≤ i < n_Teff self → j' ∈ cols → filled a i j') ∧
         (∀ i, i ∈ rows → filled a i j))
      (λ arr i_Teff,
         st ← find_neighbors self (i_Teff, j);
         np_setitem2 arr (i_Teff, j) (Some st))
      (range 0 (n_Teff self)) a) as (a' & Ha' & Hsh' & Hcols' & Hrows').
    + split; [done|]. split; [done|]. intros i Hi. by apply elem_of_nil in Hi.
    + intros rows i a1 Hi (Ha1 & Hcols1 & Hrows1). apply elem_of_range in Hi.
      rewrite find_neighbors_spec by done. simpl.
      destruct (np_setitem2_inrange a1 _ _ i j (Some (mask_of self i j)) Ha1)
        as (a2 & -> & Ha2 & Hset & Hother); [lia..|].
      exists a2. split; [done|].
      assert (∀ i' j', filled a1 i' j' → filled a2 i' j') as Hkeep.
      { intros i' j' Hf. unfold filled.
        destruct (decide ((i', j') = (i, j))) as [[= -> ->]|Hne]; [done|].
        by rewrite Hother. }
      split; [done|]. split; [by auto|].
      intros i' Hi'. apply elem_of_app in Hi' as [Hi'|Hi']; [by auto|].
      apply list_elem_of_singleton in Hi' as ->. done.
    + exists a'. split; [done|]. split; [done|].
      intros i j' Hi Hj'. apply elem_of_app in Hj' as [Hj'|Hj']; [by auto|].
      apply list_elem_of_singleton in Hj' as ->.
      apply Hrows'. apply elem_of_range. lia.
  - exists nb. split; [done|]. split; [done|].
    intros i j Hi Hj. apply Hfilled; [done|]. by apply elem_of_range.
Qed.

(** ** Construction *)

Lemma len_zero_nil {A : Type} (l : list A) : (len l =? 0) = true ↔ l = [].
Proof.
  unfold len. rewrite Z.eqb_eq. destruct l; simpl; [done|]. split; [lia|done].
Qed.

Lemma Grid_init_spec (nodes_list : list Node) (dbg : bool) :
  nodes_list ≠ [] →
  ∃ self, Grid_init nodes_list dbg = Ok self ∧ constructed nodes_list dbg self.
Proof.
  intros Hne. unfold Grid_init.
  destruct (len nodes_list =? 0) eqn:Hlen; [by apply len_zero_nil in Hlen|].
  set (T_axis := np_unique (Teff <$> nodes_list)).
  set (g_axis := np_unique (logg <$> nodes_list)).
  destruct (place_nodes_spec T_axis g_axis nodes_list
              (np_empty (len T_axis) (len g_axis)))
    as (arr & -> & Harr & Hcells).
  - apply np_unique_NoDup.
  - apply np_unique_NoDup.
  - apply np_empty_shaped; apply len_nonneg.
  - apply Forall_forall. intros nd Hnd. split.
    + apply np_unique_elem_of. by apply list_elem_of_fmap_2.
    + apply np_unique_elem_of. by apply list_elem_of_fmap_2.
  - simpl.
    destruct (fill_neighbors_spec
      (mkGrid T_axis g_axis (len T_axis) (len g_axis) arr
              (np_empty (len T_axis) (len g_axis)) dbg)
      (np_empty (len T_axis) (len g_axis))) as (nb & -> & Hnb & Hmasks).
    + done.
    + apply np_empty_shaped; apply len_nonneg.
    + simpl. eexists. split; [done|].
      split; simpl; try done.
      intros i j T g Hi Hj. unfold cell. simpl.
      rewrite (Hcells i j T g Hi Hj).
      destruct (last_at T g nodes_list); [done|].
      rewrite at2_np_empty; [done| |].
      * apply lookup_lt_Some in Hi. unfold len. lia.
      * apply lookup_lt_Some in Hj. unfold len. lia.
Qed.

Lemma Grid_init_Ok_inv (nodes_list : list Node) (dbg : bool) (self : Grid) :
  Grid_init nodes_list dbg = Ok self → constructed nodes_list dbg self.
Proof.
  intros Hinit. destruct (decide (nodes_list = [])) as [->|Hne]; [done|].
  destruct (Grid_init_spec nodes_list dbg Hne) as (self' & Hinit' & Hc).
  congruence.
Qed.

(** ** Bisection *)

Lemma np_getitem_first {A : Type} (a : list A) (x : A) :
  a !! 0%nat = Some x → np_getitem a 0 = Ok x.
Proof. intros Hx. by apply np_getitem_nonneg. Qed.

Lemma np_getitem_minus1 {A : Type} (a : list A) (x : A) :
  last a = Some x → np_getitem a (-1) = Ok x.
Proof. intros [a' ->]%last_Some. apply np_getitem_last. Qed.

Lemma last_lookup_len {A : Type} (a : list A) (x : A) :
  last a = Some x ↔ 0 < len a ∧ a !! Z.to_nat (len a - 1) = Some x.
Proof.
  rewrite last_lookup. unfold len.
  replace (Z.to_nat (Z.of_nat (length a) - 1)) with (pred (length a)) by lia.
  split; [|by intros [_ ?]].
  intros Hx. split; [|done]. apply lookup_lt_Some in Hx. lia.
Qed.

Lemma bisect_unfold (fuel : nat) (x : Z) (x_axis : list Z) (k_0 k_1 : Z) :
  bisect fuel x x_axis k_0 k_1 =
  if k_1 - k_0 >? 1 then
    match fuel with
    | O => Diverge
    | S fuel' =>
        a ← np_getitem x_axis ((k_0 + k_1) / 2);
        if x >=? a then bisect fuel' x x_axis ((k_0 + k_1) / 2) k_1
        else bisect fuel' x x_axis k_0 ((k_0 + k_1) / 2)
    end
  else Ok k_0.
Proof. by destruct fuel. Qed.

(** The loop ends within its fuel and keeps [x_axis[k_0] <= x < x_axis[k_1]]
    (each bound only where the index names an element). *)
Lemma bisect_spec (fuel : nat) (x : Z) (x_axis : list Z) (k_0 k_1 : Z) :
  -1 ≤ k_0 → k_0 < k_1 → k_1 ≤ len x_axis → k_1 - k_0 ≤ Z.of_nat fuel + 1 →
  (∀ a, 0 ≤ k_0 → x_axis !! Z.to_nat k_0 = Some a → a ≤ x) →
  (∀ b, x_axis !! Z.to_nat k_1 = Some b → x < b) →
  ∃ k, bisect fuel x x_axis k_0 k_1 = Ok k ∧ k_0 ≤ k < k_1 ∧
       (∀ a, 0 ≤ k → x_axis !! Z.to_nat k = Some a → a ≤ x) ∧
       (∀ b, x_axis !! Z.to_nat (k + 1) = Some b → x < b).
Proof.
  revert k_0 k_1. induction fuel as [|fuel IH]; intros k_0 k_1 Hlo Hlt Hhi Hfuel Hk0 Hk1;
    rewrite bisect_unfold; destruct (Z.gtb_spec (k_1 - k_0) 1) as [Hgt|Hle].
  - lia.
  - exists k_0. replace (k_0 + 1) with k_1 by lia. repeat split; auto; lia.
  - set (k := (k_0 + k_1) / 2).
    assert (k_0 < k < k_1) as Hk.
    { unfold k. Z.div_mod_to_equations. lia. }
    destruct (np_getitem_inrange x_axis k) as (a & Ha & ->); [lia|]. simpl.
    destruct (Z.geb_spec x a) as [Hxa|Hxa].
    + destruct (IH k k_1) as (r & -> & Hr & Hr1 & Hr2); try lia; try done.
      { intros a' _ Ha'. congruence. }
      exists r. repeat split; auto; lia.
    + destruct (IH k_0 k) as (r & -> & Hr & Hr1 & Hr2); try lia; try done.
      { intros b Hb. congruence. }
      exists r. repeat split; auto; lia.
  - exists k_0. replace (k_0 + 1) with k_1 by lia. repeat split; auto; lia.
Qed.

(** [locate_x] on a query within the closed range of a non-empty axis. *)
Lemma locate_x_spec (x : Z) (x_axis : list Z) (a0 al : Z) :
  x_axis !! 0%nat = Some a0 → last x_axis = Some al → a0 ≤ x ≤ al →
  ∃ k, locate_x x x_axis = Ok k ∧
    ((x = a0 ∧ k = 0) ∨
     (x ≠ a0 ∧ x = al ∧ k = len x_axis - 2) ∨
     (a0 < x < al ∧ 0 ≤ k ≤ len x_axis - 2 ∧
      (∀ a, x_axis !! Z.to_nat k = Some a → a ≤ x) ∧
      (∀ b, x_axis !! Z.to_nat (k + 1) = Some b → x < b))).
Proof.
  intros H0 Hl Hx. unfold locate_x.
  rewrite (np_getitem_first _ _ H0), bind_Ok_l.
  destruct (Z.eqb_spec x a0) as [->|Hne0]; [by eauto|].
  rewrite (np_getitem_minus1 _ _ Hl), bind_Ok_l.
  destruct (Z.eqb_spec x al) as [->|Hnel]; [by eauto 10|].
  apply last_lookup_len in Hl as [Hpos Hl].
  destruct (bisect_spec (S (length x_axis)) x x_axis (-1) (len x_axis))
    as (k & -> & Hk & Hlow & Hupp); try (unfold len in *; lia).
  { intros b Hb. apply lookup_lt_Some in Hb. unfold len in Hb. lia. }
  exists k. split; [done|]. right. right.
  assert (0 ≤ k).
  { destruct (decide (k = -1)) as [->|]; [|lia].
    specialize (Hupp a0 H0). lia. }
  assert (k ≤ len x_axis - 2).
  { destruct (decide (k = len x_axis - 1)) as [->|]; [|lia].
    specialize (Hlow al ltac:(lia) Hl). lia. }
  repeat split; auto; lia.
Qed.

Lemma StronglySorted_lookup_le (l : list Z) (i j : nat) (a b : Z) :
  StronglySorted Z.lt l → (i ≤ j)%nat → l !! i = Some a → l !! j = Some b → a ≤ b.
Proof.
  intros Hs. revert i j. induction Hs as [|x l _ IH Hx]; intros i j Hij Hi Hj; [done|].
  destruct i as [|i], j as [|j]; simpl in *.
  - simplify_eq. lia.
  - injection Hi as ->. rewrite Forall_forall in Hx.
    apply list_elem_of_lookup_2 in Hj. specialize (Hx b Hj). lia.
  - lia.
  - eapply IH; [|done..]. lia.
Qed.

Lemma StronglySorted_lookup_lt (l : list Z) (i j : nat) (a b : Z) :
  StronglySorted Z.lt l → (i < j)%nat → l !! i = Some a → l !! j = Some b → a < b.
Proof.
  intros Hs Hij Hi Hj.
  destruct (decide (a = b)) as [->|Hne].
  - pose proof (NoDup_lookup l i j b (StronglySorted_lt_NoDup l Hs) Hi Hj). lia.
  - pose proof (StronglySorted_lookup_le l i j a b Hs ltac:(lia) Hi Hj). lia.
Qed.

(** The three cases of the boundary law, for one strictly increasing axis. *)
Lemma locate_x_first (x_axis : list Z) (a0 : Z) :
  x_axis !! 0%nat = Some a0 → locate_x a0 x_axis = Ok 0.
Proof.
  intros H0. unfold locate_x. rewrite (np_getitem_first _ _ H0). simpl.
  by rewrite Z.eqb_refl.
Qed.

Lemma locate_x_last (x_axis : list Z) (al : Z) :
  StronglySorted Z.lt x_axis → 2 ≤ len x_axis → last x_axis = Some al →
  locate_x al x_axis = Ok (len x_axis - 2).
Proof.
  intros Hs Hn Hl. unfold locate_x.
  destruct (np_getitem_inrange x_axis 0) as (a0 & H0 & ->); [lia|]. simpl.
  pose proof Hl as [_ Hl']%last_lookup_len.
  assert (a0 < al) as Hlt.
  { apply (StronglySorted_lookup_lt x_axis 0 (Z.to_nat (len x_axis - 1))
             a0 al Hs); [unfold len in *; lia|done|done]. }
  destruct (Z.eqb_spec al a0); [lia|].
  rewrite (np_getitem_minus1 _ _ Hl). simpl. by rewrite Z.eqb_refl.
Qed.

Lemma locate_x_between (x_axis : list Z) (k : nat) (a b x : Z) :
  StronglySorted Z.lt x_axis →
  x_axis !! k = Some a → x_axis !! S k = Some b → a < x < b →
  locate_x x x_axis = Ok (Z.of_nat k).
Proof.
  intros Hs Ha Hb Hx.
  destruct (lookup_lt_is_Some_2 x_axis 0) as [a0 H0].
  { apply lookup_lt_Some in Ha. lia. }
  destruct (last x_axis) as [al|] eqn:Hl.
  2:{ apply last_None in Hl. by subst. }
  pose proof Hl as [_ Hl']%last_lookup_len.
  pose proof (lookup_lt_Some _ _ _ Hb) as Hlen.
  assert (a0 ≤ a) by (eapply (StronglySorted_lookup_le x_axis 0 k); eauto; lia).
  assert (b ≤ al).
  { apply (StronglySorted_lookup_le x_axis (S k) (Z.to_nat (len x_axis - 1))
             b al Hs); [unfold len; lia|done|done]. }
  destruct (locate_x_spec x x_axis a0 al H0 Hl) as (r & -> & Hr); [lia|].
  f_equal. destruct Hr as [[? _]|[(_ & ? & _)|(_ & Hr & Hlow & Hupp)]]; [lia..|].
  destruct (Z.lt_trichotomy r (Z.of_nat k)) as [Hlt|[Heq|Hgt]]; [|done|].
  - destruct (lookup_lt_is_Some_2 x_axis (Z.to_nat (r + 1))) as [b' Hb'].
    { apply lookup_lt_Some in Ha. lia. }
    specialize (Hupp b' Hb').
    pose proof (StronglySorted_lookup_le x_axis (Z.to_nat (r + 1)) k b' a Hs
                  ltac:(lia) Hb' Ha). lia.
  - destruct (lookup_lt_is_Some_2 x_axis (Z.to_nat r)) as [a' Ha'].
    { unfold len in Hr. lia. }
    specialize (Hlow a' Ha').
    pose proof (StronglySorted_lookup_le x_axis (S k) (Z.to_nat r) b a' Hs
                  ltac:(lia) Hb Ha'). lia.
Qed.

(** ** Constructed grids *)

Section constructed_grid.
Context (nodes_list : list Node) (dbg : bool) (self : Grid).
Hypothesis Hc : constructed nodes_list dbg self.

Lemma constructed_Teff_sorted : StronglySorted Z.lt (Teff_axis self).
Proof. rewrite (c_Teff_axis _ _ _ Hc). apply np_unique_sorted. Qed.

Lemma constructed_logg_sorted : StronglySorted Z.lt (logg_axis self).
Proof. rewrite (c_logg_axis _ _ _ Hc). apply np_unique_sorted. Qed.

Lemma constructed_Teff_NoDup : NoDup (Teff_axis self).
Proof. apply StronglySorted_lt_NoDup, constructed_Teff_sorted. Qed.

Lemma constructed_logg_NoDup : NoDup (logg_axis self).
Proof. apply StronglySorted_lt_NoDup, constructed_logg_sorted. Qed.

Lemma constructed_node_on_axes (nd : Node) :
  nd ∈ nodes_list → Teff nd ∈ Teff_axis self ∧ logg nd ∈ logg_axis self.
Proof.
  intros Hnd. rewrite (c_Teff_axis _ _ _ Hc), (c_logg_axis _ _ _ Hc).
  split; apply np_unique_elem_of; by apply list_elem_of_fmap_2.
Qed.

(** [lookup] at an exact axis pair returns the content of the cell. *)
Lemma lookup_on_axes (i j : nat) (T g : Z) :
  Teff_axis self !! i = Some T → logg_axis self !! j = Some g →
  lookup self T g = Ok (cell self (Z.of_nat i) (Z.of_nat j)).
Proof.
  intros Hi Hj. unfold lookup.
  assert (np_contains T (Teff_axis self) = true) as ->.
  { apply np_contains_elem_of. by eapply list_elem_of_lookup_2. }
  assert (np_contains g (logg_axis self) = true) as ->.
  { apply np_contains_elem_of. by eapply list_elem_of_lookup_2. }
  simpl.
  rewrite (np_where_index (Teff_axis self) i T constructed_Teff_NoDup Hi).
  rewrite bind_Ok_l.
  rewrite (np_where_index (logg_axis self) j g constructed_logg_NoDup Hj).
  rewrite bind_Ok_l.
  apply lookup_lt_Some in Hi, Hj.
  destruct (at2_inrange (nodes self) _ _ (Z.of_nat i) (Z.of_nat j)
              (c_nodes _ _ _ Hc)) as (x & Hx & ->).
  { rewrite (c_n_Teff _ _ _ Hc). unfold len. lia. }
  { rewrite (c_n_logg _ _ _ Hc). unfold len. lia. }
  unfold cell. rewrite Hx. by destruct x.
Qed.

(** [lookup] off the axes returns [None]. *)
Lemma lookup_off_axes (T g : Z) :
  T ∉ Teff_axis self ∨ g ∉ logg_axis self → lookup self T g = Ok None.
Proof.
  intros Hoff. unfold lookup.
  destruct (np_contains T (Teff_axis self)) eqn:HT; [|done].
  destruct (np_contains g (logg_axis self)) eqn:Hg; [|done].
  apply np_contains_elem_of in HT, Hg. by destruct Hoff.
Qed.

(** [lookup] at the coordinates of an input node returns the last node of
    the input with these coordinates. *)
Lemma lookup_input_node (nd : Node) :
  nd ∈ nodes_list →
  lookup self (Teff nd) (logg nd) = Ok (last_at (Teff nd) (logg nd) nodes_list).
Proof.
  intros Hnd. destruct (constructed_node_on_axes nd Hnd) as [HT Hg].
  apply list_elem_of_lookup_1 in HT as [i Hi].
  apply list_elem_of_lookup_1 in Hg as [j Hj].
  rewrite (lookup_on_axes i j) by done.
  by rewrite (c_cell _ _ _ Hc i j _ _ Hi Hj).
Qed.

Lemma find_neighbors_constructed (i j : Z) :
  find_neighbors self (i, j) = Ok (mask_of self i j).
Proof. apply find_neighbors_spec, (c_nodes _ _ _ Hc). Qed.
End constructed_grid.

Lemma last_at_elem_of (T g : Z) (l : list Node) (nd : Node) :
  last_at T g l = Some nd → nd ∈ l ∧ Teff nd = T ∧ logg nd = g.
Proof.
  induction l as [|x l IH]; simpl; [done|].
  destruct (last_at T g l) as [nd'|].
  - intros Heq. destruct (IH Heq) as (? & ? & ?). split; [by right|done].
  - destruct (Z.eqb_spec (Teff x) T), (Z.eqb_spec (logg x) g); simpl; try done.
    intros Heq. injection Heq as Heq. subst x. split; [by left|done].
Qed.

Lemma last_at_is_Some (l : list Node) (nd : Node) :
  nd ∈ l → is_Some (last_at (Teff nd) (logg nd) l).
Proof.
  induction l as [|x l IH]; [by intros ?%elem_of_nil|].
  intros [<-|Hin]%elem_of_cons; simpl.
  - destruct (last_at (Teff nd) (logg nd) l); [by eexists|].
    rewrite !Z.eqb_refl. by eexists.
  - destruct (IH Hin) as [nd' ->]. by eexists.
Qed.

(** Without two nodes at the same coordinates, the last node at the
    coordinates of [nd] is [nd] itself. *)
Lemma last_at_NoDup (l : list Node) (nd : Node) :
  NoDup (coords <$> l) → nd ∈ l →
  last_at (Teff nd) (logg nd) l = Some nd.
Proof.
  intros Hnd Hin. destruct (last_at_is_Some l nd Hin) as [nd' Hnd'].
  rewrite Hnd'. f_equal.
  apply last_at_elem_of in Hnd' as (Hin' & HT & Hg).
  apply list_elem_of_lookup_1 in Hin as [i Hi].
  apply list_elem_of_lookup_1 in Hin' as [i' Hi'].
  assert (i' = i) as ->; [|congruence].
  eapply (NoDup_lookup _ i' i (Teff nd, logg nd) Hnd).
  - rewrite list_lookup_fmap, Hi'. simpl. unfold coords. by rewrite HT, Hg.
  - by rewrite list_lookup_fmap, Hi.
Qed.

(** Entries of the occupancy mask. *)
Lemma entry_mask_of (self : Grid) (i j dh dk : Z) :
  -1 ≤ dh ≤ 1 → -1 ≤ dk ≤ 1 →
  entry (mask_of self i j) (dh + 1) (dk + 1) = occupied self (i + dh) (j + dk).
Proof.
  intros Hh Hk.
  assert (dh = -1 ∨ dh = 0 ∨ dh = 1) as [->|[->| ->]] by lia;
    (assert (dk = -1 ∨ dk = 0 ∨ dk = 1) as [->|[->| ->]] by lia); reflexivity.
Qed.

Lemma occupied_spec (self : Grid) (a b : Z) :
  occupied self a b = true ↔
  0 ≤ a < n_Teff self ∧ 0 ≤ b < n_logg self ∧ is_Some (cell self a b).
Proof.
  unfold occupied. rewrite !andb_true_iff, !Z.leb_le, !Z.ltb_lt.
  assert (isinstance_Node (cell self a b) = true ↔ is_Some (cell self a b)) as ->.
  { destruct (cell self a b) as [nd|]; simpl.
    - split; [by eexists|done].
    - split; [done|]. by intros [? ?]. }
  tauto.
Qed.

(** ** Locate on a grid *)

Lemma np_getitem_wrap {A : Type} (a : list A) (k : Z) :
  - len a ≤ k < len a → ∃ x, np_getitem a k = Ok x.
Proof.
  intros Hk. destruct (decide (0 ≤ k)) as [Hpos|Hneg].
  - destruct (np_getitem_inrange a k) as (x & _ & Hx); [lia|]. eauto.
  - destruct (lookup_lt_is_Some_2 a (Z.to_nat (k + len a))) as [x Hx].
    { unfold len in *. lia. }
    exists x. apply np_getitem_neg; [lia|done|lia].
Qed.

Lemma locate_x_bounds (x : Z) (x_axis : list Z) (a0 al k : Z) :
  x_axis !! 0%nat = Some a0 → last x_axis = Some al → a0 ≤ x ≤ al →
  2 ≤ len x_axis → locate_x x x_axis = Ok k → 0 ≤ k ≤ len x_axis - 2.
Proof.
  intros H0 Hl Hx Hn Hk.
  destruct (locate_x_spec x x_axis a0 al H0 Hl Hx) as (k' & Hk' & Hcases).
  assert (k' = k) as -> by congruence.
  destruct Hcases as [[_ ->]|[(_ & _ & ->)|(_ & ? & _)]]; lia.
Qed.

Lemma outside_range_spec (x : Z) (x_axis : list Z) (a0 al : Z) :
  x_axis !! 0%nat = Some a0 → last x_axis = Some al →
  outside_range x x_axis = Ok ((x <? a0) || (x >? al)).
Proof.
  intros H0 Hl. unfold outside_range.
  rewrite (np_getitem_first _ _ H0), bind_Ok_l.
  destruct (x <? a0); [done|].
  by rewrite (np_getitem_minus1 _ _ Hl), bind_Ok_l.
Qed.

Section locate_grid.
Context (self : Grid) (T0 Tl g0 gl : Z).
Hypothesis HT0 : Teff_axis self !! 0%nat = Some T0.
Hypothesis HTl : last (Teff_axis self) = Some Tl.
Hypothesis Hg0 : logg_axis self !! 0%nat = Some g0.
Hypothesis Hgl : last (logg_axis self) = Some gl.

Lemma locate_outside (T g : Z) :
  T < T0 ∨ Tl < T ∨ g < g0 ∨ gl < g → locate self T g = Raise IndexError.
Proof.
  intros Hout. unfold locate.
  rewrite (outside_range_spec _ _ _ _ HT0 HTl), bind_Ok_l.
  destruct (Z.ltb_spec T T0); [done|]. destruct (Z.gtb_spec T Tl); [done|]. simpl.
  rewrite (outside_range_spec _ _ _ _ Hg0 Hgl), bind_Ok_l.
  destruct (Z.ltb_spec g g0); [done|]. destruct (Z.gtb_spec g gl); [done|]. lia.
Qed.

(** Inside the closed ranges the range tests pass and the two axis
    resolutions are made; what remains is the diagnostic print. *)
Lemma locate_inside (T g : Z) :
  T0 ≤ T ≤ Tl → g0 ≤ g ≤ gl →
  ∃ i j, locate_x T (Teff_axis self) = Ok i ∧ locate_x g (logg_axis self) = Ok j ∧
    locate self T g =
      if debug self then
        _ ← np_getitem (Teff_axis self) i;
        _ ← np_getitem (Teff_axis self) (i + 1);
        _ ← np_getitem (logg_axis self) j;
        _ ← np_getitem (logg_axis self) (j + 1);
        Ok (i, j)
      else Ok (i, j).
Proof.
  intros HT Hg.
  destruct (locate_x_spec T _ _ _ HT0 HTl HT) as (i & Hi & _).
  destruct (locate_x_spec g _ _ _ Hg0 Hgl Hg) as (j & Hj & _).
  exists i, j. split; [done|]. split; [done|]. unfold locate.
  rewrite (outside_range_spec _ _ _ _ HT0 HTl), bind_Ok_l.
  destruct (Z.ltb_spec T T0); [lia|]. destruct (Z.gtb_spec T Tl); [lia|]. simpl.
  rewrite (outside_range_spec _ _ _ _ Hg0 Hgl), bind_Ok_l.
  destruct (Z.ltb_spec g g0); [lia|]. destruct (Z.gtb_spec g gl); [lia|]. simpl.
  rewrite Hi, bind_Ok_l, Hj, bind_Ok_l. done.
Qed.

(** With the print off, or with at least two values on each axis, every
    query inside the closed ranges is located. *)
Lemma locate_inside_Ok (T g : Z) :
  T0 ≤ T ≤ Tl → g0 ≤ g ≤ gl →
  debug self = false ∨ (2 ≤ len (Teff_axis self) ∧ 2 ≤ len (logg_axis self)) →
  ∃ i j, locate_x T (Teff_axis self) = Ok i ∧ locate_x g (logg_axis self) = Ok j ∧
    locate self T g = Ok (i, j).
Proof.
  intros HT Hg Hcond.
  destruct (locate_inside T g HT Hg) as (i & j & Hi & Hj & ->).
  exists i, j. split; [done|]. split; [done|].
  destruct (debug self); [|done].
  destruct Hcond as [?|[HnT Hng]]; [done|].
  pose proof (locate_x_bounds _ _ _ _ _ HT0 HTl HT HnT Hi).
  pose proof (locate_x_bounds _ _ _ _ _ Hg0 Hgl Hg Hng Hj).
  destruct (np_getitem_wrap (Teff_axis self) i) as [? ->]; [lia|].
  destruct (np_getitem_wrap (Teff_axis self) (i + 1)) as [? ->]; [lia|].
  destruct (np_getitem_wrap (logg_axis self) j) as [? ->]; [lia|].
  destruct (np_getitem_wrap (logg_axis self) (j + 1)) as [? ->]; [lia|].
  done.
Qed.

(** The range law under the same condition. *)
Lemma locate_range_law (T g : Z) :
  debug self = false ∨ (2 ≤ len (Teff_axis self) ∧ 2 ≤ len (logg_axis self)) →
  (locate self T g = Raise IndexError ↔ T < T0 ∨ Tl < T ∨ g < g0 ∨ gl < g) ∧
  (T0 ≤ T ≤ Tl → g0 ≤ g ≤ gl → ∃ ij, locate self T g = Ok ij).
Proof.
  intros Hcond. split.
  - split; [|apply locate_outside].
    intros Hraise.
    destruct (decide (T0 ≤ T ≤ Tl ∧ g0 ≤ g ≤ gl)) as [[HT Hg]|Hout]; [|lia].
    destruct (locate_inside_Ok T g HT Hg Hcond) as (i & j & _ & _ & Hok).
    congruence.
  - intros HT Hg.
    destruct (locate_inside_Ok T g HT Hg Hcond) as (i & j & _ & _ & Hok).
    by exists (i, j).
Qed.
End locate_grid.

(** ** The derivative helper away from the upper boundaries *)

Lemma find_derivs_below_upper_boundary (nodes_list : list Node) (dbg : bool)
    (self : Grid) (i j : Z) (show : bool) :
  constructed nodes_list dbg self →
  0 ≤ i → i + 1 < n_Teff self → 0 ≤ j → j + 1 < n_logg self →
  find_derivs self (i, j) show =
    Ok (if show then
          [[occupied self (i + -1) (j + -1); occupied self (i + 1) (j + -1)];
           [occupied self (i + -1) (j + 1); occupied self (i + 1) (j + 1)]]
        else []).
Proof.
  intros Hc Hi0 Hi1 Hj0 Hj1. unfold find_derivs. cbn [fst snd].
  pose proof (c_n_Teff _ _ _ Hc) as HnT. pose proof (c_n_logg _ _ _ Hc) as Hng.
  destruct (np_getitem_wrap (Teff_axis self) i) as [? ->]; [lia|].
  destruct (np_getitem_wrap (logg_axis self) j) as [? ->]; [lia|].
  rewrite !bind_Ok_l.
  destruct (at2_inrange (nodes self) _ _ i j (c_nodes _ _ _ Hc)) as (? & _ & ->);
    [lia..|].
  rewrite bind_Ok_l, (find_neighbors_constructed _ _ _ Hc), bind_Ok_l.
  cbn [for_each].
  destruct (np_getitem_wrap (Teff_axis self) (i + -1)) as [? ->]; [lia|].
  destruct (np_getitem_wrap (Teff_axis self) (i + 1)) as [? ->]; [lia|].
  destruct (np_getitem_wrap (logg_axis self) (j + -1)) as [? ->]; [lia|].
  destruct (np_getitem_wrap (logg_axis self) (j + 1)) as [? ->]; [lia|].
  by destruct show.
Qed.

Lemma np_getitem2_mask_of (self : Grid) (i j dh dk : Z) :
  -1 ≤ dh ≤ 1 → -1 ≤ dk ≤ 1 →
  np_getitem2 (mask_of self i j) (dh + 1, dk + 1)
  = Ok (occupied self (i + dh) (j + dk)).
Proof.
  intros Hh Hk.
  assert (dh = -1 ∨ dh = 0 ∨ dh = 1) as [->|[->| ->]] by lia;
    (assert (dk = -1 ∨ dk = 0 ∨ dk = 1) as [->|[->| ->]] by lia); reflexivity.
Qed.

(** ** Where the code raises inside the grid *)

(** [find_derivs] on a cell of the last temperature row: the read of
    [Teff_axis[i + 1]] is out of range. *)
Lemma find_derivs_last_Teff_row (nodes_list : list Node) (dbg : bool)
    (self : Grid) (j : Z) (show : bool) :
  constructed nodes_list dbg self →
  0 < n_Teff self → 0 ≤ j < n_logg self →
  find_derivs self (n_Teff self - 1, j) show = Raise IndexError.
Proof.
  intros Hc Hn Hj. unfold find_derivs. cbn [fst snd].
  pose proof (c_n_Teff _ _ _ Hc) as HnT. pose proof (c_n_logg _ _ _ Hc) as Hng.
  destruct (np_getitem_wrap (Teff_axis self) (n_Teff self - 1)) as [? ->]; [lia|].
  destruct (np_getitem_wrap (logg_axis self) j) as [? ->]; [lia|].
  rewrite !bind_Ok_l.
  destruct (at2_inrange (nodes self) _ _ (n_Teff self - 1) j (c_nodes _ _ _ Hc))
    as (? & _ & ->); [lia..|].
  rewrite bind_Ok_l, (find_neighbors_constructed _ _ _ Hc), bind_Ok_l.
  cbn [for_each].
  destruct (np_getitem_wrap (Teff_axis self) (n_Teff self - 1 + -1)) as [? ->]; [lia|].
  destruct (np_getitem_wrap (logg_axis self) (j + -1)) as [? ->]; [lia|].
  rewrite !bind_Ok_l.
  rewrite (np_getitem_out (Teff_axis self) (n_Teff self - 1 + 1)) by lia.
  destruct show; [|done].
  by rewrite (np_getitem2_mask_of self _ _ (-1) (-1)) by lia.
Qed.

(** [locate] with the diagnostic print on, on a grid with a single
    temperature: the print reads [Teff_axis[1]]. *)
Lemma locate_debug_single_Teff (nodes_list : list Node) (self : Grid)
    (T0 g0 gl T g : Z) :
  constructed nodes_list true self →
  Teff_axis self = [T0] →
  logg_axis self !! 0%nat = Some g0 → last (logg_axis self) = Some gl →
  T0 ≤ T ≤ T0 → g0 ≤ g ≤ gl →
  locate self T g = Raise IndexError.
Proof.
  intros Hc HT Hg0 Hgl HTin Hgin.
  destruct (locate_inside self T0 T0 g0 gl) with (T := T) (g := g)
    as (i & j & Hi & Hj & ->); try done; try (by rewrite HT).
  rewrite (c_debug _ _ _ Hc). rewrite HT in Hi |- *.
  assert (T = T0) as -> by lia.
  assert (i = 0) as ->.
  { rewrite (locate_x_first [T0] T0) in Hi by done. congruence. }
  done.
Qed.

Lemma occupied_outside (self : Grid) (a b : Z) :
  ¬ (0 ≤ a < n_Teff self ∧ 0 ≤ b < n_logg self) → occupied self a b = false.
Proof.
  intros Hout. destruct (occupied self a b) eqn:Hocc; [|done].
  apply occupied_spec in Hocc. tauto.
Qed.

Lemma mask_of_shaped (self : Grid) (i j : Z) : shaped 3 3 (mask_of self i j).
Proof. split; [done|]. unfold mask_of. by repeat constructor. Qed.

Lemma boundary_law_locate_x (x_axis : list Z) (x k : Z) :
  StronglySorted Z.lt x_axis → 2 ≤ len x_axis →
  locate_x x x_axis = Ok k → boundary_law x_axis x k.
Proof.
  intros Hs Hn Hk. split; [|split].
  - intros H0. rewrite (locate_x_first _ _ H0) in Hk. congruence.
  - intros Hl. rewrite (locate_x_last _ _ Hs Hn Hl) in Hk. congruence.
  - intros k' a b Ha Hb Hx.
    rewrite (locate_x_between _ _ _ _ _ Hs Ha Hb Hx) in Hk. congruence.
Qed.

(** ** Adding a node at a pair already present *)

Lemma np_unique_same_elements (l l' : list Z) :
  (∀ x, x ∈ l ↔ x ∈ l') → np_unique l = np_unique l'.
Proof.
  intros Hsame. apply (StronglySorted_unique Z.le).
  - apply StronglySorted_lt_le, np_unique_sorted.
  - apply StronglySorted_lt_le, np_unique_sorted.
  - apply NoDup_Permutation; [apply np_unique_NoDup..|].
    intros x. by rewrite !np_unique_elem_of.
Qed.

Lemma last_at_snoc (l : list Node) (nd : Node) :
  last_at (Teff nd) (logg nd) (l ++ [nd]) = Some nd.
Proof.
  induction l as [|x l IH]; simpl.
  - by rewrite !Z.eqb_refl.
  - by rewrite IH.
Qed.

Lemma fmap_snoc_same_elements (f : Node → Z) (l : list Node) (nd : Node) :
  f nd ∈ f <$> l → ∀ x, x ∈ f <$> (l ++ [nd]) ↔ x ∈ f <$> l.
Proof.
  intros Hin x. rewrite fmap_app, elem_of_app. simpl.
  rewrite list_elem_of_singleton. split; [|by left].
  intros [?| ->]; done.
Qed.

(** ** The concrete scenario, run *)

Example scenario_axes :
  Teff_axis (scenario_grid false) = [10000; 20000; 30000; 40000] ∧
  logg_axis (scenario_grid false) = [30; 35; 40; 45].
Proof. by vm_compute. Qed.

Example scenario_lookup_hole : lookup (scenario_grid false) 20000 35 = Ok None.
Proof. by vm_compute. Qed.

Example scenario_locate_inside : locate (scenario_grid false) 25000 38 = Ok (1, 1).
Proof. by vm_compute. Qed.

Example scenario_locate_last : locate (scenario_grid false) 40000 45 = Ok (2, 2).
Proof. by vm_compute. Qed.

Example scenario_locate_outside :
  locate (scenario_grid false) 5000 32 = Raise IndexError.
Proof. by vm_compute. Qed.

Example scenario_neighbors_of_hole :
  find_neighbors (scenario_grid false) (1, 1)
  = Ok [[true; true; true]; [true; false; true]; [true; true; true]].
Proof. by vm_compute. Qed.

(** * The claims *)

(** C8.  Constructing a grid from an empty collection raises the
    empty-input exception ([Exception('Empty grid')]), and no grid is
    produced. *)
Theorem C8_empty_input_raises (dbg : bool) :
  Grid_init [] dbg = Raise (Exception "Empty grid") ∧
  ∀ self, Grid_init [] dbg ≠ Ok self.
Proof. split; [reflexivity|]. intros self. discriminate. Qed.



(** C5.  Occupancy round-trip: in a grid constructed from nodes with pairwise
    distinct (temperature, gravity) pairs, [lookup] at the pair of an input
    node returns that node. *)
Theorem C5_occupancy_round_trip (nodes_list : list Node) (dbg : bool)
    (self : Grid) (nd : Node) :
  Grid_init nodes_list dbg = Ok self →
  NoDup (coords <$> nodes_list) →
  nd ∈ nodes_list →
  lookup self (Teff nd) (logg nd) = Ok (Some nd).
Proof.
  intros Hinit Hnodup Hnd. apply Grid_init_Ok_inv in Hinit.
  rewrite (lookup_input_node _ _ _ Hinit nd Hnd).
  by rewrite (last_at_NoDup _ _ Hnodup Hnd).
Qed.

Lemma C5_occupancy_round_trip_witness :
  lookup (scenario_grid false) 30000 40 = Ok (Some (node_at 30000 40)).
Proof.
  apply (C5_occupancy_round_trip scenario_nodes false (scenario_grid false)
           (node_at 30000 40)).
  - vm_compute. reflexivity.
  - apply (bool_decide_unpack _). vm_compute. exact I.
  - apply (bool_decide_unpack _). vm_compute. exact I.
Defined.

(** C4.  [lookup] on a constructed grid returns [None] when either value is
    not on its axis; at an exact axis pair it returns [None] when the cell is
    a hole and the stored node otherwise.  It is a function of the grid and
    the query: nothing is modified. *)
Theorem C4_lookup_exact (nodes_list : list Node) (dbg : bool) (self : Grid)
    (T g : Z) :
  Grid_init nodes_list dbg = Ok self →
  (T ∉ Teff_axis self ∨ g ∉ logg_axis self → lookup self T g = Ok None) ∧
  (∀ i j : nat,
     Teff_axis self !! i = Some T → logg_axis self !! j = Some g →
     (cell self (Z.of_nat i) (Z.of_nat j) = None → lookup self T g = Ok None) ∧
     (∀ nd, cell self (Z.of_nat i) (Z.of_nat j) = Some nd →
            lookup self T g = Ok (Some nd))).
Proof.
  intros Hinit. apply Grid_init_Ok_inv in Hinit. split.
  - by eapply lookup_off_axes.
  - intros i j Hi Hj. rewrite (lookup_on_axes _ _ _ Hinit i j T g Hi Hj).
    split; [by intros ->|]. by intros nd ->.
Qed.

Lemma C4_lookup_exact_witness :
  (20000 ∉ Teff_axis (scenario_grid false) ∨ 35 ∉ logg_axis (scenario_grid false) →
   lookup (scenario_grid false) 20000 35 = Ok None) ∧
  (∀ i j : nat,
     Teff_axis (scenario_grid false) !! i = Some 20000 →
     logg_axis (scenario_grid false) !! j = Some 35 →
     (cell (scenario_grid false) (Z.of_nat i) (Z.of_nat j) = None →
      lookup (scenario_grid false) 20000 35 = Ok None) ∧
     (∀ nd, cell (scenario_grid false) (Z.of_nat i) (Z.of_nat j) = Some nd →
            lookup (scenario_grid false) 20000 35 = Ok (Some nd))).
Proof.
  apply (C4_lookup_exact scenario_nodes false (scenario_grid false) 20000 35).
  vm_compute. reflexivity.
Defined.

(** C7.  For every cell index pair [(i, j)] of a constructed grid and every
    offset [(dh, dk)] in {-1,0,1} x {-1,0,1}: the mask stored for [(i, j)] at
    construction is the mask [find_neighbors] returns for [(i, j)], and its
    entry [[dh+1, dk+1]] is true iff [(i+dh, j+dk)] is within the axis bounds
    and that cell is occupied. *)
Theorem C7_stencil_consistent (nodes_list : list Node) (dbg : bool)
    (self : Grid) (i j dh dk : Z) :
  Grid_init nodes_list dbg = Ok self →
  0 ≤ i < n_Teff self → 0 ≤ j < n_logg self →
  -1 ≤ dh ≤ 1 → -1 ≤ dk ≤ 1 →
  ∃ st, np_getitem2 (neighbors self) (i, j) = Ok (Some st) ∧
        find_neighbors self (i, j) = Ok st ∧
        (entry st (dh + 1) (dk + 1) = true ↔
         0 ≤ i + dh < n_Teff self ∧ 0 ≤ j + dk < n_logg self ∧
         is_Some (cell self (i + dh) (j + dk))).
Proof.
  intros Hinit Hi Hj Hdh Hdk. apply Grid_init_Ok_inv in Hinit.
  exists (mask_of self i j). split; [|split].
  - destruct (at2_inrange (neighbors self) _ _ i j
                (c_neighbors_shaped _ _ _ Hinit) Hi Hj) as (x & Hx & ->).
    rewrite (c_neighbors _ _ _ Hinit i j Hi Hj) in Hx. congruence.
  - by eapply find_neighbors_constructed.
  - rewrite entry_mask_of by done. apply occupied_spec.
Qed.

Lemma C7_stencil_consistent_witness :
  ∃ st, np_getitem2 (neighbors (scenario_grid false)) (1, 1) = Ok (Some st) ∧
        find_neighbors (scenario_grid false) (1, 1) = Ok st ∧
        (entry st (0 + 1) (0 + 1) = true ↔
         0 ≤ 1 + 0 < n_Teff (scenario_grid false) ∧
         0 ≤ 1 + 0 < n_logg (scenario_grid false) ∧
         is_Some (cell (scenario_grid false) (1 + 0) (1 + 0))).
Proof.
  apply (C7_stencil_consistent scenario_nodes false (scenario_grid false) 1 1 0 0).
  - vm_compute. reflexivity.
  - by vm_compute.
  - by vm_compute.
  - lia.
  - lia.
Defined.

(** C10.  On a constructed grid [find_neighbors] returns a 3 x 3 mask for
    every pair of integers, also outside the index ranges, without raising;
    every entry whose offset position falls outside the axis bounds is false,
    and a query with no offset position inside the grid gives the all-false
    mask. *)
Theorem C10_find_neighbors_total (nodes_list : list Node) (dbg : bool)
    (self : Grid) (i j : Z) :
  Grid_init nodes_list dbg = Ok self →
  ∃ st, find_neighbors self (i, j) = Ok st ∧ shaped 3 3 st ∧
    (∀ dh dk, -1 ≤ dh ≤ 1 → -1 ≤ dk ≤ 1 →
       ¬ (0 ≤ i + dh < n_Teff self ∧ 0 ≤ j + dk < n_logg self) →
       entry st (dh + 1) (dk + 1) = false) ∧
    (i < -1 ∨ n_Teff self < i ∨ j < -1 ∨ n_logg self < j → st = np_zeros 3 3).
Proof.
  intros Hinit. apply Grid_init_Ok_inv in Hinit.
  exists (mask_of self i j). split; [by eapply find_neighbors_constructed|].
  split; [apply mask_of_shaped|]. split.
  - intros dh dk Hdh Hdk Hout. rewrite entry_mask_of by done.
    by apply occupied_outside.
  - intros Hout. unfold mask_of. cbn [fmap list_fmap].
    rewrite !occupied_outside by lia. reflexivity.
Qed.

Lemma C10_find_neighbors_total_witness :
  ∃ st, find_neighbors (scenario_grid false) (-5, 9) = Ok st ∧ shaped 3 3 st ∧
    (∀ dh dk, -1 ≤ dh ≤ 1 → -1 ≤ dk ≤ 1 →
       ¬ (0 ≤ -5 + dh < n_Teff (scenario_grid false) ∧
          0 ≤ 9 + dk < n_logg (scenario_grid false)) →
       entry st (dh + 1) (dk + 1) = false) ∧
    (-5 < -1 ∨ n_Teff (scenario_grid false) < -5 ∨ 9 < -1 ∨
     n_logg (scenario_grid false) < 9 → st = np_zeros 3 3).
Proof.
  apply (C10_find_neighbors_total scenario_nodes false (scenario_grid false) (-5) 9).
  vm_compute. reflexivity.
Defined.

(** C2.  Boundary law.  On a grid whose two axes are strictly increasing with
    at least two values, for a query inside the closed ranges, [locate]
    returns the pair of the two per-axis resolutions, each made by [locate_x]
    on its own axis; a resolution is 0 when the query equals the first axis
    value, [n - 2] when it equals the last, and [k] when the query lies
    strictly between the values at [k] and [k + 1]. *)
Theorem C2_locate_boundary_law (self : Grid) (T g T0 Tl g0 gl : Z) :
  StronglySorted Z.lt (Teff_axis self) → 2 ≤ len (Teff_axis self) →
  StronglySorted Z.lt (logg_axis self) → 2 ≤ len (logg_axis self) →
  Teff_axis self !! 0%nat = Some T0 → last (Teff_axis self) = Some Tl →
  logg_axis self !! 0%nat = Some g0 → last (logg_axis self) = Some gl →
  T0 ≤ T ≤ Tl → g0 ≤ g ≤ gl →
  ∃ i j, locate self T g = Ok (i, j) ∧
    locate_x T (Teff_axis self) = Ok i ∧ boundary_law (Teff_axis self) T i ∧
    locate_x g (logg_axis self) = Ok j ∧ boundary_law (logg_axis self) g j.
Proof.
  intros HsT HnT Hsg Hng HT0 HTl Hg0 Hgl HT Hg.
  destruct (locate_inside_Ok self T0 Tl g0 gl HT0 HTl Hg0 Hgl T g HT Hg)
    as (i & j & Hi & Hj & Hloc); [by right|].
  exists i, j. split; [done|].
  split; [done|]. split; [by apply boundary_law_locate_x|].
  split; [done|]. by apply boundary_law_locate_x.
Qed.

Lemma C2_locate_boundary_law_witness :
  ∃ i j, locate (scenario_grid true) 25000 45 = Ok (i, j) ∧
    locate_x 25000 (Teff_axis (scenario_grid true)) = Ok i ∧
    boundary_law (Teff_axis (scenario_grid true)) 25000 i ∧
    locate_x 45 (logg_axis (scenario_grid true)) = Ok j ∧
    boundary_law (logg_axis (scenario_grid true)) 45 j.
Proof.
  apply (C2_locate_boundary_law (scenario_grid true) 25000 45 10000 40000 30 45).
  - apply (bool_decide_unpack _). vm_compute. exact I.
  - by vm_compute.
  - apply (bool_decide_unpack _). vm_compute. exact I.
  - by vm_compute.
  - vm_compute. reflexivity.
  - vm_compute. reflexivity.
  - vm_compute. reflexivity.
  - vm_compute. reflexivity.
  - lia.
  - lia.
Defined.

(** C3 (failing input of the code).  On the grid of one node built with
    [debug] set, the query at the node's own coordinates lies inside both
    closed ranges, yet [locate] raises [IndexError]: both resolutions are 0
    and the diagnostic print reads [axis[0 + 1]] on an axis of one value.
    With [debug] off the same query is located at [(0, 0)]. *)
Theorem C3_locate_debug_single_valued_axis :
  Grid_init single_node true = Ok (single_grid true) ∧
  Teff_axis (single_grid true) = [1] ∧ logg_axis (single_grid true) = [1] ∧
  locate_x 1 (Teff_axis (single_grid true)) = Ok 0 ∧
  locate_x 1 (logg_axis (single_grid true)) = Ok 0 ∧
  locate (single_grid true) 1 1 = Raise IndexError ∧
  locate (single_grid false) 1 1 = Ok (0, 0).
Proof. vm_compute. repeat split. Qed.

(** C9 (failing input of the code).  [find_derivs] reads [Teff_axis[i + 1]]
    and [logg_axis[j + 1]] without a bounds test, so it raises [IndexError]
    on a cell at an upper axis boundary: on the located cell [(0, 0)] of the
    one-node grid, and on the corner cell [(3, 3)] of the 4 x 4 grid, where
    [find_neighbors] itself returns a mask. *)
Theorem C9_find_derivs_upper_boundary :
  (Grid_init single_node false = Ok (single_grid false) ∧
   locate (single_grid false) 1 1 = Ok (0, 0) ∧
   find_derivs (single_grid false) (0, 0) true = Raise IndexError ∧
   find_derivs (single_grid false) (0, 0) false = Raise IndexError) ∧
  (Grid_init scenario_nodes false = Ok (scenario_grid false) ∧
   find_neighbors (scenario_grid false) (3, 3) =
     Ok [[true; true; false]; [true; true; false]; [false; false; false]] ∧
   find_derivs (scenario_grid false) (3, 3) true = Raise IndexError).
Proof. vm_compute. repeat split. Qed.

(** C1 (counterexample).  Two nodes with the same (temperature, gravity) pair
    are accepted: construction returns a grid and raises nothing. *)
Lemma C1_duplicate_nodes_accepted :
  ¬ NoDup (coords <$> dup_nodes) ∧
  ∃ self, Grid_init dup_nodes false = Ok self ∧
    n_Teff self = 1 ∧ n_logg self = 1 ∧
    lookup self 1 1 = Ok (Some (mkNode "b.h5" 1 1 [8])).
Proof.
  split.
  - intros Hnd. apply NoDup_cons in Hnd as [Hin _]. apply Hin. left.
  - eexists. vm_compute. repeat split.
Qed.

(** C1 (as amended).  There is no duplicate check.  In every constructed
    grid, [lookup] at the pair of an input node returns the last input node
    with that pair.  And a node whose (temperature, gravity) pair is already
    present can be added to the input of a constructed grid: construction
    again returns a grid, with the same axes, in which [lookup] at the pair
    returns the added node. *)
Theorem C1_duplicates_overwrite (nodes_list : list Node) (dbg : bool)
    (self : Grid) :
  Grid_init nodes_list dbg = Ok self →
  (∀ nd, nd ∈ nodes_list →
     ∃ nd', last_at (Teff nd) (logg nd) nodes_list = Some nd' ∧
            coords nd' = coords nd ∧
            lookup self (Teff nd) (logg nd) = Ok (Some nd')) ∧
  (∀ dup, coords dup ∈ coords <$> nodes_list →
     ∃ self', Grid_init (nodes_list ++ [dup]) dbg = Ok self' ∧
              Teff_axis self' = Teff_axis self ∧
              logg_axis self' = logg_axis self ∧
              lookup self' (Teff dup) (logg dup) = Ok (Some dup)).
Proof.
  intros Hinit. apply Grid_init_Ok_inv in Hinit. split.
  - intros nd Hnd.
    destruct (last_at_is_Some nodes_list nd Hnd) as [nd' Hnd'].
    exists nd'. split; [done|]. split.
    + apply last_at_elem_of in Hnd' as (_ & HT & Hg). unfold coords.
      by rewrite HT, Hg.
    + by rewrite (lookup_input_node _ _ _ Hinit nd Hnd), Hnd'.
  - intros dup (nd & Hco & Hnd)%list_elem_of_fmap. injection Hco as HT Hg.
    destruct (Grid_init_spec (nodes_list ++ [dup]) dbg) as (self' & Hinit' & Hc').
    { by destruct nodes_list. }
    exists self'. split; [done|]. split; [|split].
    + rewrite (c_Teff_axis _ _ _ Hc'), (c_Teff_axis _ _ _ Hinit).
      apply np_unique_same_elements, fmap_snoc_same_elements.
      rewrite HT. by apply list_elem_of_fmap_2.
    + rewrite (c_logg_axis _ _ _ Hc'), (c_logg_axis _ _ _ Hinit).
      apply np_unique_same_elements, fmap_snoc_same_elements.
      rewrite Hg. by apply list_elem_of_fmap_2.
    + rewrite (lookup_input_node _ _ _ Hc' dup).
      * by rewrite last_at_snoc.
      * apply elem_of_app. right. by left.
Qed.

Lemma C1_duplicates_overwrite_witness :
  (∀ nd, nd ∈ single_node →
     ∃ nd', last_at (Teff nd) (logg nd) single_node = Some nd' ∧
            coords nd' = coords nd ∧
            lookup (single_grid true) (Teff nd) (logg nd) = Ok (Some nd')) ∧
  (∀ dup, coords dup ∈ coords <$> single_node →
     ∃ self', Grid_init (single_node ++ [dup]) true = Ok self' ∧
              Teff_axis self' = Teff_axis (single_grid true) ∧
              logg_axis self' = logg_axis (single_grid true) ∧
              lookup self' (Teff dup) (logg dup) = Ok (Some dup)).
Proof.
  apply (C1_duplicates_overwrite single_node true (single_grid true)).
  vm_compute. reflexivity.
Defined.

(** * Further properties of the code *)

(** ** Exact lookup and the cells *)

Lemma last_at_None (T g : Z) (l : list Node) :
  last_at T g l = None ↔ ∀ nd, nd ∈ l → coords nd ≠ (T, g).
Proof.
  split.
  - intros Hnone nd Hnd Hco. injection Hco as HT Hg.
    destruct (last_at_is_Some l nd Hnd) as [nd' Hnd'].
    rewrite HT, Hg in Hnd'. congruence.
  - intros Hall. destruct (last_at T g l) as [nd|] eqn:Hl; [|done].
    apply last_at_elem_of in Hl as (Hin & HT & Hg).
    destruct (Hall nd Hin). unfold coords. by rewrite HT, Hg.
Qed.

Lemma lookup_constructed (nodes_list : list Node) (dbg : bool) (self : Grid)
    (T g : Z) :
  constructed nodes_list dbg self →
  lookup self T g = Ok (last_at T g nodes_list).
Proof.
  intros Hc.
  destruct (decide (T ∈ Teff_axis self ∧ g ∈ logg_axis self)) as [[HT Hg]|Hoff].
  - apply list_elem_of_lookup_1 in HT as [i Hi].
    apply list_elem_of_lookup_1 in Hg as [j Hj].
    rewrite (lookup_on_axes _ _ _ Hc i j T g Hi Hj).
    by rewrite (c_cell _ _ _ Hc i j T g Hi Hj).
  - rewrite (lookup_off_axes self T g).
    2:{ destruct (decide (T ∈ Teff_axis self)); [|by left].
        destruct (decide (g ∈ logg_axis self)); [|by right]. by destruct Hoff. }
    f_equal. symmetry. apply last_at_None. intros nd Hnd Hco.
    injection Hco as HT Hg. apply Hoff.
    destruct (constructed_node_on_axes _ _ _ Hc nd Hnd) as [? ?].
    by rewrite <- HT, <- Hg.
Qed.

Lemma cell_Some_inv (nodes_list : list Node) (dbg : bool) (self : Grid)
    (i j : Z) (nd : Node) :
  constructed nodes_list dbg self →
  cell self i j = Some nd →
  (0 ≤ i < n_Teff self ∧ 0 ≤ j < n_logg self) ∧
  Teff_axis self !! Z.to_nat i = Some (Teff nd) ∧
  logg_axis self !! Z.to_nat j = Some (logg nd) ∧
  nd ∈ nodes_list.
Proof.
  intros Hc Hcell.
  assert (0 ≤ i < n_Teff self ∧ 0 ≤ j < n_logg self) as [Hi Hj].
  { destruct (decide (0 ≤ i < n_Teff self ∧ 0 ≤ j < n_logg self)); [done|].
    unfold cell in Hcell.
    by rewrite (at2_outside (nodes self) _ _ i j (c_nodes _ _ _ Hc)) in Hcell. }
  split; [done|].
  destruct (lookup_lt_is_Some_2 (Teff_axis self) (Z.to_nat i)) as [T HT].
  { rewrite (c_n_Teff _ _ _ Hc) in Hi. unfold len in Hi. lia. }
  destruct (lookup_lt_is_Some_2 (logg_axis self) (Z.to_nat j)) as [g Hg].
  { rewrite (c_n_logg _ _ _ Hc) in Hj. unfold len in Hj. lia. }
  pose proof (c_cell _ _ _ Hc _ _ _ _ HT Hg) as Hlast.
  rewrite !Z2Nat.id, Hcell in Hlast by lia. symmetry in Hlast.
  apply last_at_elem_of in Hlast as (Hin & <- & <-). done.
Qed.

(** X1.  [lookup] on a constructed grid never raises.  For every query it
    returns the last input node with exactly the queried pair; a returned node
    is an input node with the queried temperature and gravity, and [None] is
    returned exactly when no input node has that pair. *)
Theorem X1_lookup_total_and_sound (nodes_list : list Node) (dbg : bool)
    (self : Grid) (T g : Z) :
  Grid_init nodes_list dbg = Ok self →
  lookup self T g = Ok (last_at T g nodes_list) ∧
  (∀ nd, lookup self T g = Ok (Some nd) →
         nd ∈ nodes_list ∧ Teff nd = T ∧ logg nd = g) ∧
  (lookup self T g = Ok None ↔ ∀ nd, nd ∈ nodes_list → coords nd ≠ (T, g)).
Proof.
  intros Hinit. apply Grid_init_Ok_inv in Hinit.
  rewrite (lookup_constructed _ _ _ T g Hinit). split; [done|]. split.
  - intros nd [= Hnd]. by apply last_at_elem_of.
  - rewrite <- last_at_None. split; [by intros [= ->]|by intros ->].
Qed.

Lemma X1_lookup_total_and_sound_witness :
  lookup (scenario_grid false) 20000 38 = Ok (last_at 20000 38 scenario_nodes) ∧
  (∀ nd, lookup (scenario_grid false) 20000 38 = Ok (Some nd) →
         nd ∈ scenario_nodes ∧ Teff nd = 20000 ∧ logg nd = 38) ∧
  (lookup (scenario_grid false) 20000 38 = Ok None ↔
   ∀ nd, nd ∈ scenario_nodes → coords nd ≠ (20000, 38)).
Proof.
  apply (X1_lookup_total_and_sound scenario_nodes false (scenario_grid false)).
  vm_compute. reflexivity.
Defined.

(** X2.  Cell invariant of the construction: a node held by cell [(i, j)] is
    an input node, [(i, j)] is inside the array, and the node's temperature
    and gravity are the axis values at [i] and [j]. *)
Theorem X2_cell_matches_axes (nodes_list : list Node) (dbg : bool)
    (self : Grid) (i j : Z) (nd : Node) :
  Grid_init nodes_list dbg = Ok self →
  cell self i j = Some nd →
  0 ≤ i < n_Teff self ∧ 0 ≤ j < n_logg self ∧
  Teff_axis self !! Z.to_nat i = Some (Teff nd) ∧
  logg_axis self !! Z.to_nat j = Some (logg nd) ∧
  nd ∈ nodes_list.
Proof.
  intros Hinit Hcell. apply Grid_init_Ok_inv in Hinit.
  destruct (cell_Some_inv _ _ _ i j nd Hinit Hcell) as ([? ?] & ? & ? & ?).
  done.
Qed.

Lemma X2_cell_matches_axes_witness :
  0 ≤ 2 < n_Teff (scenario_grid false) ∧ 0 ≤ 3 < n_logg (scenario_grid false) ∧
  Teff_axis (scenario_grid false) !! Z.to_nat 2 = Some (Teff (node_at 30000 45)) ∧
  logg_axis (scenario_grid false) !! Z.to_nat 3 = Some (logg (node_at 30000 45)) ∧
  node_at 30000 45 ∈ scenario_nodes.
Proof.
  apply (X2_cell_matches_axes scenario_nodes false (scenario_grid false) 2 3).
  - vm_compute. reflexivity.
  - vm_compute. reflexivity.
Defined.

(** X3.  No row and no column of a constructed grid is empty: every
    temperature index has an occupied cell, and so has every gravity index. *)
Theorem X3_no_empty_row_or_column (nodes_list : list Node) (dbg : bool)
    (self : Grid) :
  Grid_init nodes_list dbg = Ok self →
  (∀ i, 0 ≤ i < n_Teff self → ∃ j, occupied self i j = true) ∧
  (∀ j, 0 ≤ j < n_logg self → ∃ i, occupied self i j = true).
Proof.
  intros Hinit. apply Grid_init_Ok_inv in Hinit.
  pose proof (c_n_Teff _ _ _ Hinit) as HnT.
  pose proof (c_n_logg _ _ _ Hinit) as Hng.
  assert (∀ nd (i j : nat), nd ∈ nodes_list →
            Teff_axis self !! i = Some (Teff nd) →
            logg_axis self !! j = Some (logg nd) →
            occupied self (Z.of_nat i) (Z.of_nat j) = true) as Hocc.
  { intros nd i j Hnd Hi Hj. apply occupied_spec.
    rewrite (c_cell _ _ _ Hinit i j _ _ Hi Hj).
    apply lookup_lt_Some in Hi, Hj. unfold len in *.
    split; [lia|]. split; [lia|]. by apply last_at_is_Some. }
  split.
  - intros i Hi.
    destruct (lookup_lt_is_Some_2 (Teff_axis self) (Z.to_nat i)) as [T HT].
    { unfold len in *. lia. }
    assert (T ∈ Teff <$> nodes_list) as (nd & -> & Hnd)%list_elem_of_fmap.
    { apply np_unique_elem_of. rewrite <- (c_Teff_axis _ _ _ Hinit).
      by eapply list_elem_of_lookup_2. }
    destruct (constructed_node_on_axes _ _ _ Hinit nd Hnd) as [_ Hg].
    apply list_elem_of_lookup_1 in Hg as [j Hj].
    exists (Z.of_nat j). rewrite <- (Z2Nat.id i) by lia. by eapply Hocc.
  - intros j Hj.
    destruct (lookup_lt_is_Some_2 (logg_axis self) (Z.to_nat j)) as [g Hg].
    { unfold len in *. lia. }
    assert (g ∈ logg <$> nodes_list) as (nd & -> & Hnd)%list_elem_of_fmap.
    { apply np_unique_elem_of. rewrite <- (c_logg_axis _ _ _ Hinit).
      by eapply list_elem_of_lookup_2. }
    destruct (constructed_node_on_axes _ _ _ Hinit nd Hnd) as [HT _].
    apply list_elem_of_lookup_1 in HT as [i Hi].
    exists (Z.of_nat i). rewrite <- (Z2Nat.id j) by lia. by eapply Hocc.
Qed.

Lemma X3_no_empty_row_or_column_witness :
  (∀ i, 0 ≤ i < n_Teff (scenario_grid false) →
        ∃ j, occupied (scenario_grid false) i j = true) ∧
  (∀ j, 0 ≤ j < n_logg (scenario_grid false) →
        ∃ i, occupied (scenario_grid false) i j = true).
Proof.
  apply (X3_no_empty_row_or_column scenario_nodes false (scenario_grid false)).
  vm_compute. reflexivity.
Defined.

(** ** Sizes and input order *)

Lemma np_unique_length (l : list Z) : (length (np_unique l) ≤ length l)%nat.
Proof.
  apply submseteq_length, NoDup_submseteq; [apply np_unique_NoDup|].
  intros x. apply np_unique_elem_of.
Qed.

Lemma np_unique_nonempty (l : list Z) : l ≠ [] → np_unique l ≠ [].
Proof.
  destruct l as [|x l]; [done|]. intros _ Hnil.
  assert (x ∈ np_unique (x :: l)) as Hx by (apply np_unique_elem_of; left).
  rewrite Hnil in Hx. by apply elem_of_nil in Hx.
Qed.

(** X4.  Sizes of a constructed grid: the counts are the axis lengths, there
    is at least one value on each axis and at most as many as input nodes, and
    the node array and the stencil array both have [n_Teff] rows of [n_logg]
    slots. *)
Theorem X4_grid_sizes (nodes_list : list Node) (dbg : bool) (self : Grid) :
  Grid_init nodes_list dbg = Ok self →
  n_Teff self = len (Teff_axis self) ∧ n_logg self = len (logg_axis self) ∧
  1 ≤ n_Teff self ≤ len nodes_list ∧ 1 ≤ n_logg self ≤ len nodes_list ∧
  shaped (n_Teff self) (n_logg self) (nodes self) ∧
  shaped (n_Teff self) (n_logg self) (neighbors self).
Proof.
  intros Hinit.
  assert (nodes_list ≠ []) as Hne by (by intros ->).
  apply Grid_init_Ok_inv in Hinit.
  split; [apply (c_n_Teff _ _ _ Hinit)|]. split; [apply (c_n_logg _ _ _ Hinit)|].
  rewrite (c_n_Teff _ _ _ Hinit), (c_n_logg _ _ _ Hinit).
  rewrite (c_Teff_axis _ _ _ Hinit), (c_logg_axis _ _ _ Hinit).
  assert (∀ f : Node → Z, 1 ≤ len (np_unique (f <$> nodes_list)) ≤ len nodes_list)
    as Hlen.
  { intros f. pose proof (np_unique_length (f <$> nodes_list)) as Hle.
    rewrite length_fmap in Hle.
    assert (np_unique (f <$> nodes_list) ≠ []) as Hnil.
    { apply np_unique_nonempty. by destruct nodes_list. }
    unfold len. destruct (np_unique (f <$> nodes_list)); [done|]. simpl in *. lia. }
  split; [apply Hlen|]. split; [apply Hlen|].
  rewrite <- (c_Teff_axis _ _ _ Hinit), <- (c_logg_axis _ _ _ Hinit).
  rewrite <- (c_n_Teff _ _ _ Hinit), <- (c_n_logg _ _ _ Hinit).
  split; [apply (c_nodes _ _ _ Hinit)|apply (c_neighbors_shaped _ _ _ Hinit)].
Qed.

Lemma X4_grid_sizes_witness :
  n_Teff (scenario_grid false) = len (Teff_axis (scenario_grid false)) ∧
  n_logg (scenario_grid false) = len (logg_axis (scenario_grid false)) ∧
  1 ≤ n_Teff (scenario_grid false) ≤ len scenario_nodes ∧
  1 ≤ n_logg (scenario_grid false) ≤ len scenario_nodes ∧
  shaped (n_Teff (scenario_grid false)) (n_logg (scenario_grid false))
         (nodes (scenario_grid false)) ∧
  shaped (n_Teff (scenario_grid false)) (n_logg (scenario_grid false))
         (neighbors (scenario_grid false)).
Proof.
  apply (X4_grid_sizes scenario_nodes false (scenario_grid false)).
  vm_compute. reflexivity.
Defined.

Lemma np_unique_Permutation (l l' : list Z) : l ≡ₚ l' → np_unique l = np_unique l'.
Proof.
  intros Hp. apply (StronglySorted_unique Z.le).
  - apply StronglySorted_lt_le, np_unique_sorted.
  - apply StronglySorted_lt_le, np_unique_sorted.
  - apply NoDup_Permutation; [apply np_unique_NoDup..|].
    intros x. rewrite !np_unique_elem_of. by rewrite Hp.
Qed.

Lemma last_at_Permutation (T g : Z) (l l' : list Node) :
  l ≡ₚ l' → NoDup (coords <$> l) → last_at T g l = last_at T g l'.
Proof.
  intros Hp Hnd.
  assert (NoDup (coords <$> l')) as Hnd' by (by rewrite <- Hp).
  destruct (last_at T g l) as [nd|] eqn:Hl.
  - apply last_at_elem_of in Hl as (Hin & <- & <-).
    symmetry. apply last_at_NoDup; [done|]. by rewrite <- Hp.
  - symmetry. apply last_at_None. intros nd Hnd1.
    rewrite last_at_None in Hl. apply Hl. by rewrite Hp.
Qed.

Lemma array_ext {A : Type} (n m : Z) (a b : list (list A)) :
  shaped n m a → shaped n m b →
  (∀ i j, 0 ≤ i < n → 0 ≤ j < m → at2 a i j = at2 b i j) → a = b.
Proof.
  intros [Han Ham] [Hbn Hbm] Heq. apply list_eq. intros i.
  destruct (decide (i < length a)%nat) as [Hi|Hi].
  - destruct (lookup_lt_is_Some_2 a i Hi) as [ra Hra].
    destruct (lookup_lt_is_Some_2 b i) as [rb Hrb]; [unfold len in *; lia|].
    rewrite Hra, Hrb. f_equal.
    assert (len ra = m) as Hla.
    { rewrite Forall_forall in Ham. apply Ham. by eapply list_elem_of_lookup_2. }
    assert (len rb = m) as Hlb.
    { rewrite Forall_forall in Hbm. apply Hbm. by eapply list_elem_of_lookup_2. }
    apply list_eq. intros j.
    destruct (decide (j < length ra)%nat) as [Hj|Hj].
    + specialize (Heq (Z.of_nat i) (Z.of_nat j)). unfold at2 in Heq.
      destruct (Z.leb_spec 0 (Z.of_nat i)); [|lia].
      destruct (Z.leb_spec 0 (Z.of_nat j)); [|lia].
      simpl in Heq. rewrite !Nat2Z.id, Hra, Hrb in Heq. simpl in Heq.
      apply Heq; unfold len in *; lia.
    + rewrite !lookup_ge_None_2; [done|unfold len in *; lia..].
  - rewrite !lookup_ge_None_2; [done|unfold len in *; lia..].
Qed.

(** X5.  With pairwise distinct (temperature, gravity) pairs the constructed
    grid does not depend on the order of the input: a permutation of the
    nodes gives the same axes, the same cells and the same stencils. *)
Theorem X5_input_order_irrelevant (nodes_list nodes_list' : list Node)
    (dbg : bool) (self self' : Grid) :
  nodes_list ≡ₚ nodes_list' → NoDup (coords <$> nodes_list) →
  Grid_init nodes_list dbg = Ok self → Grid_init nodes_list' dbg = Ok self' →
  self = self'.
Proof.
  intros Hp Hnd Hinit Hinit'.
  apply Grid_init_Ok_inv in Hinit, Hinit'.
  assert (Teff_axis self = Teff_axis self') as HT.
  { rewrite (c_Teff_axis _ _ _ Hinit), (c_Teff_axis _ _ _ Hinit').
    apply np_unique_Permutation. by rewrite Hp. }
  assert (logg_axis self = logg_axis self') as Hg.
  { rewrite (c_logg_axis _ _ _ Hinit), (c_logg_axis _ _ _ Hinit').
    apply np_unique_Permutation. by rewrite Hp. }
  assert (n_Teff self = n_Teff self') as HnT.
  { by rewrite (c_n_Teff _ _ _ Hinit), (c_n_Teff _ _ _ Hinit'), HT. }
  assert (n_logg self = n_logg self') as Hng.
  { by rewrite (c_n_logg _ _ _ Hinit), (c_n_logg _ _ _ Hinit'), Hg. }
  assert (nodes self = nodes self') as Hnodes.
  { apply (array_ext (n_Teff self) (n_logg self)).
    - apply (c_nodes _ _ _ Hinit).
    - rewrite HnT, Hng. apply (c_nodes _ _ _ Hinit').
    - intros i j Hi Hj.
      destruct (at2_inrange (nodes self) _ _ i j (c_nodes _ _ _ Hinit) Hi Hj)
        as (x & Hx & _).
      destruct (at2_inrange (nodes self') _ _ i j (c_nodes _ _ _ Hinit'))
        as (x' & Hx' & _); [lia..|].
      rewrite Hx, Hx'. f_equal.
      destruct (lookup_lt_is_Some_2 (Teff_axis self) (Z.to_nat i)) as [T Hti].
      { rewrite (c_n_Teff _ _ _ Hinit) in Hi. unfold len in Hi. lia. }
      destruct (lookup_lt_is_Some_2 (logg_axis self) (Z.to_nat j)) as [g Hgj].
      { rewrite (c_n_logg _ _ _ Hinit) in Hj. unfold len in Hj. lia. }
      pose proof (c_cell _ _ _ Hinit _ _ _ _ Hti Hgj) as Hc.
      rewrite HT in Hti. rewrite Hg in Hgj.
      pose proof (c_cell _ _ _ Hinit' _ _ _ _ Hti Hgj) as Hc'.
      rewrite !Z2Nat.id in Hc, Hc' by lia. unfold cell in Hc, Hc'.
      rewrite Hx in Hc. rewrite Hx' in Hc'. simpl in Hc, Hc'.
      rewrite Hc, Hc'. by apply last_at_Permutation. }
  assert (∀ i j, mask_of self i j = mask_of self' i j) as Hmask.
  { intros i j. unfold mask_of, occupied, cell. by rewrite HnT, Hng, Hnodes. }
  assert (neighbors self = neighbors self') as Hnb.
  { apply (array_ext (n_Teff self) (n_logg self)).
    - apply (c_neighbors_shaped _ _ _ Hinit).
    - rewrite HnT, Hng. apply (c_neighbors_shaped _ _ _ Hinit').
    - intros i j Hi Hj.
      rewrite (c_neighbors _ _ _ Hinit i j Hi Hj).
      rewrite (c_neighbors _ _ _ Hinit' i j) by lia. by rewrite Hmask. }
  pose proof (c_debug _ _ _ Hinit) as Hd. pose proof (c_debug _ _ _ Hinit') as Hd'.
  destruct self, self'. simpl in *. congruence.
Qed.

Lemma X5_input_order_irrelevant_witness :
  scenario_grid false = match Grid_init (reverse scenario_nodes) false with
                        | Ok self => self
                        | _ => empty_grid
                        end.
Proof.
  apply (X5_input_order_irrelevant scenario_nodes (reverse scenario_nodes) false).
  - symmetry. apply reverse_Permutation.
  - apply (bool_decide_unpack _). vm_compute. exact I.
  - vm_compute. reflexivity.
  - vm_compute. reflexivity.
Defined.

(** ** Locate *)

Lemma axis_first_last (x_axis : list Z) :
  0 < len x_axis →
  ∃ a0 al, x_axis !! 0%nat = Some a0 ∧ last x_axis = Some al.
Proof.
  intros Hn.
  destruct (lookup_lt_is_Some_2 x_axis 0) as [a0 H0]; [unfold len in Hn; lia|].
  destruct (lookup_lt_is_Some_2 x_axis (Z.to_nat (len x_axis - 1))) as [al Hl].
  { unfold len in *. lia. }
  exists a0, al. split; [done|]. by apply last_lookup_len.
Qed.

Lemma axis_singleton (x_axis : list Z) (a0 : Z) :
  len x_axis = 1 → x_axis !! 0%nat = Some a0 → x_axis = [a0].
Proof.
  intros Hn H0. destruct x_axis as [|a [|b r]]; try (unfold len in Hn; simpl in Hn; lia).
  simpl in H0. congruence.
Qed.

(** The located index names an element of the axis. *)
Lemma locate_x_index (x : Z) (x_axis : list Z) (a0 al k : Z) :
  x_axis !! 0%nat = Some a0 → last x_axis = Some al → a0 ≤ x ≤ al →
  locate_x x x_axis = Ok k → 0 ≤ k < len x_axis.
Proof.
  intros H0 Hl Hx Hk.
  destruct (locate_x_spec x x_axis a0 al H0 Hl Hx) as (k' & Hk' & Hcases).
  assert (k' = k) as -> by congruence.
  pose proof (lookup_lt_Some _ _ _ H0) as Hlen. unfold len.
  destruct Hcases as [[_ ->]|[(Hne & -> & ->)|(_ & ? & _)]]; [lia| |unfold len in *; lia].
  destruct (decide (length x_axis = 1%nat)) as [H1|H1]; [|unfold len; lia].
  rewrite (axis_singleton x_axis a0) in Hl by (unfold len; lia || done).
  simpl in Hl. congruence.
Qed.

Lemma locate_x_bracket (x : Z) (x_axis : list Z) (a0 al k : Z) :
  StronglySorted Z.lt x_axis → 2 ≤ len x_axis →
  x_axis !! 0%nat = Some a0 → last x_axis = Some al → a0 ≤ x ≤ al →
  locate_x x x_axis = Ok k →
  0 ≤ k ≤ len x_axis - 2 ∧
  ∃ a b, x_axis !! Z.to_nat k = Some a ∧ x_axis !! Z.to_nat (k + 1) = Some b ∧
         a ≤ x ∧ (x < b ∨ (x = b ∧ x = al)).
Proof.
  intros Hs Hn H0 Hl Hx Hk.
  pose proof (locate_x_bounds _ _ _ _ _ H0 Hl Hx Hn Hk) as Hb. split; [done|].
  destruct (lookup_lt_is_Some_2 x_axis (Z.to_nat k)) as [a Ha].
  { unfold len in *. lia. }
  destruct (lookup_lt_is_Some_2 x_axis (Z.to_nat (k + 1))) as [b Hb'].
  { unfold len in *. lia. }
  exists a, b. split; [done|]. split; [done|].
  pose proof (StronglySorted_lookup_lt x_axis (Z.to_nat k) (Z.to_nat (k + 1))
                a b Hs ltac:(lia) Ha Hb') as Hab.
  destruct (locate_x_spec x x_axis a0 al H0 Hl Hx) as (k' & Hk' & Hcases).
  assert (k' = k) as -> by congruence.
  destruct Hcases as [[-> ->]|[(Hne & -> & ->)|(_ & _ & Hlow & Hupp)]].
  - change (Z.to_nat 0) with 0%nat in Ha. assert (a = a0) as -> by congruence. lia.
  - apply last_lookup_len in Hl as [_ Hl].
    replace (len x_axis - 2 + 1) with (len x_axis - 1) in Hb' by lia.
    assert (b = al) as -> by congruence. lia.
  - specialize (Hlow a Ha). specialize (Hupp b Hb'). lia.
Qed.

(** X6.  On a constructed grid with at least two values on each axis, for a
    query inside the closed ranges, [locate] returns a pair [(i, j)] that
    brackets the query: the axis values at [i] and [i + 1] exist and enclose
    the temperature, which is below the upper one unless it is the last axis
    value; likewise for the gravity. *)
Theorem X6_locate_brackets_query (nodes_list : list Node) (dbg : bool)
    (self : Grid) (T0 Tl g0 gl T g : Z) :
  Grid_init nodes_list dbg = Ok self →
  2 ≤ n_Teff self → 2 ≤ n_logg self →
  Teff_axis self !! 0%nat = Some T0 → last (Teff_axis self) = Some Tl →
  logg_axis self !! 0%nat = Some g0 → last (logg_axis self) = Some gl →
  T0 ≤ T ≤ Tl → g0 ≤ g ≤ gl →
  ∃ i j, locate self T g = Ok (i, j) ∧
    (0 ≤ i ≤ n_Teff self - 2 ∧
     ∃ a b, Teff_axis self !! Z.to_nat i = Some a ∧
            Teff_axis self !! Z.to_nat (i + 1) = Some b ∧
            a ≤ T ∧ (T < b ∨ (T = b ∧ T = Tl))) ∧
    (0 ≤ j ≤ n_logg self - 2 ∧
     ∃ a b, logg_axis self !! Z.to_nat j = Some a ∧
            logg_axis self !! Z.to_nat (j + 1) = Some b ∧
            a ≤ g ∧ (g < b ∨ (g = b ∧ g = gl))).
Proof.
  intros Hinit HnT Hng HT0 HTl Hg0 Hgl HT Hg. apply Grid_init_Ok_inv in Hinit.
  rewrite (c_n_Teff _ _ _ Hinit) in *. rewrite (c_n_logg _ _ _ Hinit) in *.
  destruct (locate_inside_Ok self T0 Tl g0 gl HT0 HTl Hg0 Hgl T g HT Hg)
    as (i & j & Hi & Hj & Hloc); [by right|].
  exists i, j. split; [done|]. split.
  - apply (locate_x_bracket T _ T0 Tl i (constructed_Teff_sorted _ _ _ Hinit)
             HnT HT0 HTl HT Hi).
  - apply (locate_x_bracket g _ g0 gl j (constructed_logg_sorted _ _ _ Hinit)
             Hng Hg0 Hgl Hg Hj).
Qed.

Lemma X6_locate_brackets_query_witness :
  ∃ i j, locate (scenario_grid true) 20000 45 = Ok (i, j) ∧
    (0 ≤ i ≤ n_Teff (scenario_grid true) - 2 ∧
     ∃ a b, Teff_axis (scenario_grid true) !! Z.to_nat i = Some a ∧
            Teff_axis (scenario_grid true) !! Z.to_nat (i + 1) = Some b ∧
            a ≤ 20000 ∧ (20000 < b ∨ (20000 = b ∧ 20000 = 40000))) ∧
    (0 ≤ j ≤ n_logg (scenario_grid true) - 2 ∧
     ∃ a b, logg_axis (scenario_grid true) !! Z.to_nat j = Some a ∧
            logg_axis (scenario_grid true) !! Z.to_nat (j + 1) = Some b ∧
            a ≤ 45 ∧ (45 < b ∨ (45 = b ∧ 45 = 45))).
Proof.
  apply (X6_locate_brackets_query scenario_nodes true (scenario_grid true)
           10000 40000 30 45 20000 45).
  - vm_compute. reflexivity.
  - by vm_compute.
  - by vm_compute.
  - vm_compute. reflexivity.
  - vm_compute. reflexivity.
  - vm_compute. reflexivity.
  - vm_compute. reflexivity.
  - lia.
  - lia.
Defined.

(** X7.  At an axis value other than the last, the per-axis resolution is the
    index of that value (the last value resolves to [n - 2]). *)
Theorem X7_locate_x_at_axis_value (x_axis : list Z) (k : nat) (a : Z) :
  StronglySorted Z.lt x_axis →
  x_axis !! k = Some a → (S k < length x_axis)%nat →
  locate_x a x_axis = Ok (Z.of_nat k).
Proof.
  intros Hs Ha Hk.
  destruct (axis_first_last x_axis) as (a0 & al & H0 & Hl); [unfold len; lia|].
  pose proof Hl as [_ Hl']%last_lookup_len.
  assert (a0 ≤ a) by (apply (StronglySorted_lookup_le x_axis 0 k a0 a Hs); [lia|done..]).
  assert (a < al).
  { apply (StronglySorted_lookup_lt x_axis k (Z.to_nat (len x_axis - 1)) a al Hs);
      [unfold len; lia|done..]. }
  destruct (locate_x_spec a x_axis a0 al H0 Hl) as (r & Hr & _); [lia|].
  destruct (locate_x_bracket a x_axis a0 al r Hs) as (Hrb & c & d & Hc & Hd & Hlo & Hup);
    [unfold len; lia|done|done|lia|done|].
  rewrite Hr. f_equal. destruct Hup as [Hup|[_ ?]]; [|lia].
  destruct (Z.lt_trichotomy r (Z.of_nat k)) as [Hlt|[Heq|Hgt]]; [|done|].
  - pose proof (StronglySorted_lookup_le x_axis (Z.to_nat (r + 1)) k d a Hs
                  ltac:(lia) Hd Ha). lia.
  - pose proof (StronglySorted_lookup_lt x_axis k (Z.to_nat r) a c Hs
                  ltac:(lia) Ha Hc). lia.
Qed.

Lemma X7_locate_x_at_axis_value_witness :
  locate_x 30 [10; 20; 30; 40] = Ok (Z.of_nat 2).
Proof.
  apply (X7_locate_x_at_axis_value [10; 20; 30; 40] 2 30).
  - apply (bool_decide_unpack _). vm_compute. exact I.
  - reflexivity.
  - simpl. lia.
Defined.

(** X8.  [locate_x] itself never raises and never loops on a non-empty axis,
    whatever the query; it raises [IndexError] on an empty one.  On a
    strictly increasing axis a query below the first value gives [-1] and a
    query above the last gives [n - 1]: neither names an interval, which is
    what the range test of [locate] keeps out. *)
Theorem X8_locate_x_total (x : Z) (x_axis : list Z) :
  locate_x x [] = Raise IndexError ∧
  (x_axis ≠ [] →
   ∃ k, locate_x x x_axis = Ok k ∧ -1 ≤ k < len x_axis ∧
     (StronglySorted Z.lt x_axis →
      (∀ a0, x_axis !! 0%nat = Some a0 → x < a0 → k = -1) ∧
      (∀ al, last x_axis = Some al → al < x → k = len x_axis - 1))).
Proof.
  split; [done|]. intros Hne.
  destruct (axis_first_last x_axis) as (a0 & al & H0 & Hl).
  { unfold len. destruct x_axis; [done|]. simpl. lia. }
  pose proof (lookup_lt_Some _ _ _ H0) as Hlen.
  pose proof Hl as [_ Hl']%last_lookup_len.
  unfold locate_x. rewrite (np_getitem_first _ _ H0), bind_Ok_l.
  destruct (Z.eqb_spec x a0) as [->|Hne0].
  { exists 0. split; [done|]. split; [unfold len; lia|]. intros Hs. split.
    - intros a Ha ?. assert (a = a0) by congruence. lia.
    - intros a Ha ?. assert (a = al) by congruence. subst a.
      pose proof (StronglySorted_lookup_le x_axis 0 _ a0 al Hs ltac:(lia) H0 Hl'). lia. }
  rewrite (np_getitem_minus1 _ _ Hl), bind_Ok_l.
  destruct (Z.eqb_spec x al) as [->|Hnel].
  { exists (len x_axis - 2). split; [done|]. split; [unfold len; lia|].
    intros Hs. split.
    - intros a Ha ?. assert (a = a0) by congruence. subst a.
      pose proof (StronglySorted_lookup_le x_axis 0 _ a0 al Hs ltac:(lia) H0 Hl'). lia.
    - intros a Ha ?. assert (a = al) by congruence. lia. }
  destruct (bisect_spec (S (length x_axis)) x x_axis (-1) (len x_axis))
    as (k & -> & Hk & Hlow & Hupp); try (unfold len in *; lia).
  { intros b Hb. apply lookup_lt_Some in Hb. unfold len in Hb. lia. }
  exists k. split; [done|]. split; [lia|]. intros Hs. split.
  - intros a Ha Hx. assert (a = a0) by congruence. subst a.
    destruct (decide (k = -1)) as [|Hk']; [done|]. exfalso.
    destruct (lookup_lt_is_Some_2 x_axis (Z.to_nat k)) as [c Hc];
      [unfold len in *; lia|].
    specialize (Hlow c ltac:(lia) Hc).
    pose proof (StronglySorted_lookup_le x_axis 0 _ a0 c Hs ltac:(lia) H0 Hc). lia.
  - intros a Ha Hx. assert (a = al) by congruence. subst a.
    destruct (decide (k = len x_axis - 1)) as [|Hk']; [done|]. exfalso.
    destruct (lookup_lt_is_Some_2 x_axis (Z.to_nat (k + 1))) as [c Hc];
      [unfold len in *; lia|].
    specialize (Hupp c Hc).
    pose proof (StronglySorted_lookup_le x_axis (Z.to_nat (k + 1))
                  (Z.to_nat (len x_axis - 1)) c al Hs
                  ltac:(unfold len in *; lia) Hc Hl'). lia.
Qed.

Lemma X8_locate_x_total_witness :
  ∃ k, locate_x 99 [10; 20; 30] = Ok k ∧ -1 ≤ k < len [10; 20; 30] ∧
    (StronglySorted Z.lt [10; 20; 30] →
     (∀ a0, [10; 20; 30] !! 0%nat = Some a0 → 99 < a0 → k = -1) ∧
     (∀ al, last [10; 20; 30] = Some al → al < 99 → k = len [10; 20; 30] - 1)).
Proof. apply (X8_locate_x_total 99 [10; 20; 30]). discriminate. Defined.

(** X9.  Range law where the diagnostic print cannot fail.  On a constructed
    grid built with [debug] off, or with at least two values on each axis,
    [locate] raises [IndexError] exactly when a coordinate is strictly outside
    its closed axis range, and for a query with both coordinates inside the
    closed ranges it returns indices of a cell of the grid. *)
Theorem X9_locate_range_law (nodes_list : list Node) (dbg : bool) (self : Grid)
    (T0 Tl g0 gl T g : Z) :
  Grid_init nodes_list dbg = Ok self →
  Teff_axis self !! 0%nat = Some T0 → last (Teff_axis self) = Some Tl →
  logg_axis self !! 0%nat = Some g0 → last (logg_axis self) = Some gl →
  dbg = false ∨ (2 ≤ n_Teff self ∧ 2 ≤ n_logg self) →
  (locate self T g = Raise IndexError ↔ T < T0 ∨ Tl < T ∨ g < g0 ∨ gl < g) ∧
  (T0 ≤ T ≤ Tl → g0 ≤ g ≤ gl →
   ∃ i j, locate self T g = Ok (i, j) ∧
          0 ≤ i < n_Teff self ∧ 0 ≤ j < n_logg self).
Proof.
  intros Hinit HT0 HTl Hg0 Hgl Hcond. apply Grid_init_Ok_inv in Hinit.
  assert (debug self = false ∨
          (2 ≤ len (Teff_axis self) ∧ 2 ≤ len (logg_axis self))) as Hcond'.
  { rewrite (c_debug _ _ _ Hinit), <- (c_n_Teff _ _ _ Hinit),
      <- (c_n_logg _ _ _ Hinit). done. }
  split.
  - apply (locate_range_law self T0 Tl g0 gl HT0 HTl Hg0 Hgl T g Hcond').
  - intros HT Hg.
    destruct (locate_inside_Ok self T0 Tl g0 gl HT0 HTl Hg0 Hgl T g HT Hg Hcond')
      as (i & j & Hi & Hj & Hloc).
    exists i, j. split; [done|].
    rewrite (c_n_Teff _ _ _ Hinit), (c_n_logg _ _ _ Hinit). split.
    + by apply (locate_x_index T _ T0 Tl).
    + by apply (locate_x_index g _ g0 gl).
Qed.

Lemma X9_locate_range_law_witness :
  (locate (single_grid false) 1 1 = Raise IndexError ↔ 1 < 1 ∨ 1 < 1 ∨ 1 < 1 ∨ 1 < 1) ∧
  (1 ≤ 1 ≤ 1 → 1 ≤ 1 ≤ 1 →
   ∃ i j, locate (single_grid false) 1 1 = Ok (i, j) ∧
          0 ≤ i < n_Teff (single_grid false) ∧ 0 ≤ j < n_logg (single_grid false)).
Proof.
  apply (X9_locate_range_law single_node false (single_grid false) 1 1 1 1 1 1).
  - vm_compute. reflexivity.
  - reflexivity.
  - reflexivity.
  - reflexivity.
  - reflexivity.
  - by left.
Defined.

(** X10.  With [debug] on, on a constructed grid where an axis has a single
    value, [locate] raises [IndexError] for every query inside the closed
    ranges (the diagnostic print reads the axis value after the located one)
    as it does for every query strictly outside them. *)
Theorem X10_locate_debug_single_value_always_raises (nodes_list : list Node)
    (self : Grid) (T0 Tl g0 gl T g : Z) :
  Grid_init nodes_list true = Ok self →
  n_Teff self = 1 ∨ n_logg self = 1 →
  Teff_axis self !! 0%nat = Some T0 → last (Teff_axis self) = Some Tl →
  logg_axis self !! 0%nat = Some g0 → last (logg_axis self) = Some gl →
  (T0 ≤ T ≤ Tl ∧ g0 ≤ g ≤ gl) ∨ (T < T0 ∨ Tl < T ∨ g < g0 ∨ gl < g) →
  locate self T g = Raise IndexError.
Proof.
  intros Hinit Hone HT0 HTl Hg0 Hgl Hquery.
  apply Grid_init_Ok_inv in Hinit.
  pose proof (c_n_Teff _ _ _ Hinit) as HnT. pose proof (c_n_logg _ _ _ Hinit) as Hng.
  pose proof (lookup_lt_Some _ _ _ HT0) as HlT.
  pose proof (lookup_lt_Some _ _ _ Hg0) as Hlg.
  destruct Hquery as [[HT Hg]|Hout].
  2:{ by apply (locate_outside self T0 Tl g0 gl). }
  destruct (locate_inside self T0 Tl g0 gl HT0 HTl Hg0 Hgl T g HT Hg)
    as (i & j & Hi & Hj & ->).
  rewrite (c_debug _ _ _ Hinit).
  pose proof (locate_x_index _ _ _ _ _ HT0 HTl HT Hi) as Hib.
  pose proof (locate_x_index _ _ _ _ _ Hg0 Hgl Hg Hj) as Hjb.
  destruct (np_getitem_wrap (Teff_axis self) i) as [? ->]; [lia|].
  rewrite bind_Ok_l.
  destruct (decide (len (Teff_axis self) = 1)) as [H1|H1].
  { by rewrite (np_getitem_out (Teff_axis self) (i + 1)) by lia. }
  assert (0 ≤ i ≤ len (Teff_axis self) - 2) as Hib'.
  { apply (locate_x_bounds T _ T0 Tl); (done || unfold len in *; lia). }
  destruct (np_getitem_wrap (Teff_axis self) (i + 1)) as [? ->]; [lia|].
  destruct (np_getitem_wrap (logg_axis self) j) as [? ->]; [lia|].
  rewrite !bind_Ok_l.
  by rewrite (np_getitem_out (logg_axis self) (j + 1)) by lia.
Qed.

Lemma X10_locate_debug_single_value_always_raises_witness :
  locate (single_grid true) 1 1 = Raise IndexError.
Proof.
  apply (X10_locate_debug_single_value_always_raises single_node (single_grid true)
           1 1 1 1).
  - vm_compute. reflexivity.
  - left. reflexivity.
  - reflexivity.
  - reflexivity.
  - reflexivity.
  - reflexivity.
  - left. lia.
Defined.

(** ** The derivative helper *)

(** [find_derivs] on a cell of the last gravity column, not in the last
    temperature row: the first pass of the outer loop completes, the second
    reads [logg_axis[j + 1]] out of range. *)
Lemma find_derivs_last_logg_column (nodes_list : list Node) (dbg : bool)
    (self : Grid) (i : Z) (show : bool) :
  constructed nodes_list dbg self →
  0 ≤ i → i + 1 < n_Teff self → 0 < n_logg self →
  find_derivs self (i, n_logg self - 1) show = Raise IndexError.
Proof.
  intros Hc Hi0 Hi1 Hn. unfold find_derivs. cbn [fst snd].
  pose proof (c_n_Teff _ _ _ Hc) as HnT. pose proof (c_n_logg _ _ _ Hc) as Hng.
  destruct (np_getitem_wrap (Teff_axis self) i) as [? ->]; [lia|].
  destruct (np_getitem_wrap (logg_axis self) (n_logg self - 1)) as [? ->]; [lia|].
  rewrite !bind_Ok_l.
  destruct (at2_inrange (nodes self) _ _ i (n_logg self - 1) (c_nodes _ _ _ Hc))
    as (? & _ & ->); [lia..|].
  rewrite bind_Ok_l, (find_neighbors_constructed _ _ _ Hc), bind_Ok_l.
  cbn [for_each].
  destruct (np_getitem_wrap (Teff_axis self) (i + -1)) as [? ->]; [lia|].
  destruct (np_getitem_wrap (Teff_axis self) (i + 1)) as [? ->]; [lia|].
  destruct (np_getitem_wrap (logg_axis self) (n_logg self - 1 + -1)) as [? ->]; [lia|].
  rewrite !bind_Ok_l.
  rewrite (np_getitem_out (logg_axis self) (n_logg self - 1 + 1)) by lia.
  destruct show; [|done].
  rewrite (np_getitem2_mask_of self _ _ (-1) (-1)) by lia.
  by rewrite (np_getitem2_mask_of self _ _ 1 (-1)) by lia.
Qed.

(** X11.  [find_derivs] on a constructed grid, for a pair of non-negative
    indices: it completes exactly on the cells that are neither in the last
    temperature row nor in the last gravity column (nor beyond), reporting the
    occupancy of the four diagonal neighbours when [show] is on and nothing
    when it is off; on every other cell it raises [IndexError]. *)
Theorem X11_find_derivs_outcome (nodes_list : list Node) (dbg : bool)
    (self : Grid) (i j : Z) (show : bool) :
  Grid_init nodes_list dbg = Ok self →
  0 ≤ i → 0 ≤ j →
  (i + 1 < n_Teff self ∧ j + 1 < n_logg self →
   find_derivs self (i, j) show =
     Ok (if show then
           [[occupied self (i + -1) (j + -1); occupied self (i + 1) (j + -1)];
            [occupied self (i + -1) (j + 1); occupied self (i + 1) (j + 1)]]
         else [])) ∧
  (¬ (i + 1 < n_Teff self ∧ j + 1 < n_logg self) →
   find_derivs self (i, j) show = Raise IndexError).
Proof.
  intros Hinit Hi Hj. apply Grid_init_Ok_inv in Hinit.
  pose proof (c_n_Teff _ _ _ Hinit) as HnT.
  pose proof (c_n_logg _ _ _ Hinit) as Hng. split.
  - intros [Hi1 Hj1]. by apply (find_derivs_below_upper_boundary nodes_list dbg).
  - intros Hout.
    destruct (decide (n_Teff self ≤ i)) as [HiT|HiT].
    { unfold find_derivs. cbn [fst snd].
      by rewrite (np_getitem_out (Teff_axis self) i) by lia. }
    destruct (decide (n_logg self ≤ j)) as [Hjg|Hjg].
    { unfold find_derivs. cbn [fst snd].
      destruct (np_getitem_wrap (Teff_axis self) i) as [? ->]; [lia|].
      rewrite bind_Ok_l.
      by rewrite (np_getitem_out (logg_axis self) j) by lia. }
    destruct (decide (i = n_Teff self - 1)) as [->|HiT'].
    { apply (find_derivs_last_Teff_row nodes_list dbg); (done || lia). }
    assert (j = n_logg self - 1) as -> by lia.
    apply (find_derivs_last_logg_column nodes_list dbg); (done || lia).
Qed.

Lemma X11_find_derivs_outcome_witness :
  (3 + 1 < n_Teff (scenario_grid false) ∧ 0 + 1 < n_logg (scenario_grid false) →
   find_derivs (scenario_grid false) (3, 0) true =
     Ok [[occupied (scenario_grid false) (3 + -1) (0 + -1);
          occupied (scenario_grid false) (3 + 1) (0 + -1)];
         [occupied (scenario_grid false) (3 + -1) (0 + 1);
          occupied (scenario_grid false) (3 + 1) (0 + 1)]]) ∧
  (¬ (3 + 1 < n_Teff (scenario_grid false) ∧ 0 + 1 < n_logg (scenario_grid false)) →
   find_derivs (scenario_grid false) (3, 0) true = Raise IndexError).
Proof.
  apply (X11_find_derivs_outcome scenario_nodes false (scenario_grid false) 3 0 true).
  - vm_compute. reflexivity.
  - lia.
  - lia.
Defined.

(** X12.  [locate] followed by [find_derivs]: on a constructed grid with at
    least two values on each axis, every cell that [locate] returns is one on
    which [find_derivs] completes, with the four diagonal occupancies as its
    report. *)
Theorem X12_find_derivs_on_located_cell (nodes_list : list Node) (dbg : bool)
    (self : Grid) (T g i j : Z) :
  Grid_init nodes_list dbg = Ok self →
  2 ≤ n_Teff self → 2 ≤ n_logg self →
  locate self T g = Ok (i, j) →
  find_derivs self (i, j) true =
    Ok [[occupied self (i + -1) (j + -1); occupied self (i + 1) (j + -1)];
        [occupied self (i + -1) (j + 1); occupied self (i + 1) (j + 1)]].
Proof.
  intros Hinit HnT Hng Hloc. apply Grid_init_Ok_inv in Hinit.
  pose proof (c_n_Teff _ _ _ Hinit) as HnT'.
  pose proof (c_n_logg _ _ _ Hinit) as Hng'.
  destruct (axis_first_last (Teff_axis self)) as (T0 & Tl & HT0 & HTl); [lia|].
  destruct (axis_first_last (logg_axis self)) as (g0 & gl & Hg0 & Hgl); [lia|].
  destruct (decide (T0 ≤ T ≤ Tl ∧ g0 ≤ g ≤ gl)) as [[HT Hg]|Hout].
  2:{ rewrite (locate_outside self T0 Tl g0 gl) in Hloc by (done || lia). done. }
  destruct (locate_inside_Ok self T0 Tl g0 gl HT0 HTl Hg0 Hgl T g HT Hg)
    as (i' & j' & Hi & Hj & Hloc'); [right; lia|].
  assert (i' = i ∧ j' = j) as [-> ->] by (split; congruence).
  pose proof (locate_x_bounds _ _ _ _ _ HT0 HTl HT ltac:(lia) Hi).
  pose proof (locate_x_bounds _ _ _ _ _ Hg0 Hgl Hg ltac:(lia) Hj).
  apply (find_derivs_below_upper_boundary nodes_list dbg self i j true Hinit); lia.
Qed.

Lemma X12_find_derivs_on_located_cell_witness :
  find_derivs (scenario_grid true) (2, 2) true =
    Ok [[occupied (scenario_grid true) (2 + -1) (2 + -1);
         occupied (scenario_grid true) (2 + 1) (2 + -1)];
        [occupied (scenario_grid true) (2 + -1) (2 + 1);
         occupied (scenario_grid true) (2 + 1) (2 + 1)]].
Proof.
  apply (X12_find_derivs_on_located_cell scenario_nodes true (scenario_grid true)
           40000 45 2 2).
  - vm_compute. reflexivity.
  - by vm_compute.
  - by vm_compute.
  - vm_compute. reflexivity.
Defined.

(** ** Neighbour stencils *)

Lemma entry_mask_of_centre (self : Grid) (i j : Z) :
  entry (mask_of self i j) 1 1 = occupied self i j.
Proof.
  pose proof (entry_mask_of self i j 0 0 ltac:(lia) ltac:(lia)) as H.
  by rewrite !Z.add_0_r in H.
Qed.

(** X13.  Masks of adjacent positions agree: the entry of the mask of
    [(i, j)] at offset [(dh, dk)] is the centre entry of the mask of
    [(i + dh, j + dk)], and the entry of that mask at the opposite offset is
    the centre entry of the mask of [(i, j)].  So between two occupied cells
    the neighbour relation is symmetric. *)
Theorem X13_neighbor_masks_agree (nodes_list : list Node) (dbg : bool)
    (self : Grid) (i j dh dk : Z) (st st' : stencil) :
  Grid_init nodes_list dbg = Ok self →
  -1 ≤ dh ≤ 1 → -1 ≤ dk ≤ 1 →
  find_neighbors self (i, j) = Ok st →
  find_neighbors self (i + dh, j + dk) = Ok st' →
  entry st (dh + 1) (dk + 1) = entry st' 1 1 ∧
  entry st' (- dh + 1) (- dk + 1) = entry st 1 1.
Proof.
  intros Hinit Hdh Hdk Hst Hst'. apply Grid_init_Ok_inv in Hinit.
  rewrite (find_neighbors_constructed _ _ _ Hinit) in Hst, Hst'.
  injection Hst as <-. injection Hst' as <-.
  rewrite (entry_mask_of self i j dh dk) by done.
  rewrite (entry_mask_of self (i + dh) (j + dk) (- dh) (- dk)) by lia.
  rewrite !entry_mask_of_centre.
  split; f_equal; lia.
Qed.

Lemma X13_neighbor_masks_agree_witness :
  entry [[true; true; true]; [true; false; true]; [true; true; true]] (1 + 1) (0 + 1)
  = entry [[true; false; true]; [true; true; true]; [true; true; true]] 1 1 ∧
  entry [[true; false; true]; [true; true; true]; [true; true; true]] (- 1 + 1) (- 0 + 1)
  = entry [[true; true; true]; [true; false; true]; [true; true; true]] 1 1.
Proof.
  apply (X13_neighbor_masks_agree scenario_nodes false (scenario_grid false) 1 1 1 0).
  - vm_compute. reflexivity.
  - lia.
  - lia.
  - vm_compute. reflexivity.
  - vm_compute. reflexivity.
Defined.

(** X14.  The centre entry of a cell's mask and exact lookup agree: for the
    cell of an axis pair, the centre entry is true exactly when [lookup] at
    that pair returns a node. *)
Theorem X14_centre_entry_is_lookup (nodes_list : list Node) (dbg : bool)
    (self : Grid) (i j : nat) (T g : Z) (st : stencil) :
  Grid_init nodes_list dbg = Ok self →
  Teff_axis self !! i = Some T → logg_axis self !! j = Some g →
  find_neighbors self (Z.of_nat i, Z.of_nat j) = Ok st →
  (entry st 1 1 = true ↔ ∃ nd, lookup self T g = Ok (Some nd)).
Proof.
  intros Hinit Hi Hj Hst. apply Grid_init_Ok_inv in Hinit.
  rewrite (find_neighbors_constructed _ _ _ Hinit) in Hst. injection Hst as <-.
  rewrite (lookup_on_axes _ _ _ Hinit i j T g Hi Hj).
  rewrite entry_mask_of_centre, occupied_spec. apply lookup_lt_Some in Hi, Hj.
  rewrite (c_n_Teff _ _ _ Hinit), (c_n_logg _ _ _ Hinit). unfold len. split.
  - intros (_ & _ & [nd Hnd]). exists nd. by rewrite Hnd.
  - intros [nd [= Hnd]]. split; [lia|]. split; [lia|]. by exists nd.
Qed.

Lemma X14_centre_entry_is_lookup_witness :
  entry [[true; true; true]; [true; false; true]; [true; true; true]] 1 1 = true ↔
  ∃ nd, lookup (scenario_grid false) 20000 35 = Ok (Some nd).
Proof.
  apply (X14_centre_entry_is_lookup scenario_nodes false (scenario_grid false)
           1%nat 1%nat).
  - vm_compute. reflexivity.
  - reflexivity.
  - reflexivity.
  - vm_compute. reflexivity.
Defined.

(** ** The topology display and the script *)

Lemma for_each_emit {A B : Type} (f : A → list B)
    (body : list B → A → result (list B)) (xs : list A) (out : list B) :
  (∀ out x, x ∈ xs → body out x = Ok (out ++ f x)) →
  for_each xs body out = Ok (out ++ (xs ≫= f)).
Proof.
  revert out. induction xs as [|x xs IH]; intros out Hbody; simpl.
  - by rewrite app_nil_r.
  - rewrite Hbody by left. simpl. rewrite IH.
    + by rewrite <- app_assoc.
    + intros out' y Hy. apply Hbody. by right.
Qed.

Lemma list_bind_singleton {A B : Type} (h : A → B) (xs : list A) :
  (xs ≫= λ x, [h x]) = h <$> xs.
Proof. induction xs as [|x xs IH]; [done|]. by rewrite bind_cons, fmap_cons, IH. Qed.

Lemma length_bind_const {A B : Type} (f : A → list B) (xs : list A) (c : nat) :
  (∀ x, length (f x) = c) → length (xs ≫= f) = (length xs * c)%nat.
Proof.
  intros Hf. induction xs as [|x xs IH]; [done|].
  rewrite bind_cons, length_app, Hf, IH. simpl. lia.
Qed.

Lemma show_topology_constructed (nodes_list : list Node) (dbg : bool)
    (self : Grid) :
  constructed nodes_list dbg self →
  show_topology self = Ok (topology_text self).
Proof.
  intros Hc. unfold show_topology, topology_text.
  rewrite (for_each_emit (λ j,
    ((λ i, if occupied self i j then "X " else ". ") <$> range 0 (n_Teff self))
      ++ [line_feed; line_feed])); [done|].
  intros out j Hj. apply elem_of_range in Hj.
  rewrite (for_each_emit (λ i, [if occupied self i j then "X " else ". "])).
  - rewrite bind_Ok_l, list_bind_singleton. by rewrite <- app_assoc.
  - intros out' i Hi. apply elem_of_range in Hi.
    destruct (at2_inrange (nodes self) _ _ i j (c_nodes _ _ _ Hc))
      as (x & Hx & ->); [lia..|].
    rewrite bind_Ok_l. unfold occupied, cell. rewrite Hx. simpl.
    destruct (Z.leb_spec 0 i); [|lia]. destruct (Z.ltb_spec i (n_Teff self)); [|lia].
    destruct (Z.leb_spec 0 j); [|lia]. destruct (Z.ltb_spec j (n_logg self)); [|lia].
    simpl. by destruct (isinstance_Node x).
Qed.

(** X15.  [show_topology] on a constructed grid never raises.  It writes one
    line per gravity index, in axis order, each made of one mark per
    temperature index, ["X "] for an occupied cell and [". "] for a hole,
    followed by two line feeds. *)
Theorem X15_show_topology_text (nodes_list : list Node) (dbg : bool)
    (self : Grid) :
  Grid_init nodes_list dbg = Ok self →
  show_topology self = Ok (topology_text self) ∧
  len (topology_text self) = n_logg self * (n_Teff self + 2).
Proof.
  intros Hinit. apply Grid_init_Ok_inv in Hinit.
  split; [by eapply show_topology_constructed|].
  assert (0 ≤ n_logg self) as Hn.
  { rewrite (c_n_logg _ _ _ Hinit). apply len_nonneg. }
  assert (0 ≤ n_Teff self) as Hm.
  { rewrite (c_n_Teff _ _ _ Hinit). apply len_nonneg. }
  unfold topology_text, len.
  rewrite (length_bind_const _ _ (Z.to_nat (n_Teff self) + 2)).
  - unfold range. rewrite length_seqZ. lia.
  - intros j. unfold range. rewrite length_app, length_fmap, length_seqZ.
    simpl. lia.
Qed.

Lemma X15_show_topology_text_witness :
  show_topology (scenario_grid false) = Ok (topology_text (scenario_grid false)) ∧
  len (topology_text (scenario_grid false))
  = n_logg (scenario_grid false) * (n_Teff (scenario_grid false) + 2).
Proof.
  apply (X15_show_topology_text scenario_nodes false (scenario_grid false)).
  vm_compute. reflexivity.
Defined.

Lemma find_derivs_7_3 (nodes_list : list Node) (self : Grid) :
  constructed nodes_list true self →
  find_derivs self (7, 3) true =
    if decide (8 < n_Teff self ∧ 4 < n_logg self) then
      Ok [[occupied self 6 2; occupied self 8 2];
          [occupied self 6 4; occupied self 8 4]]
    else Raise IndexError.
Proof.
  intros Hc.
  pose proof (c_n_Teff _ _ _ Hc) as HnT. pose proof (c_n_logg _ _ _ Hc) as Hng.
  destruct (decide (8 < n_Teff self ∧ 4 < n_logg self)) as [[HT Hg]|Hout].
  { apply (find_derivs_below_upper_boundary nodes_list true self 7 3 true Hc); lia. }
  destruct (decide (n_Teff self ≤ 7)) as [HiT|HiT].
  { unfold find_derivs. cbn [fst snd].
    by rewrite (np_getitem_out (Teff_axis self) 7) by lia. }
  destruct (decide (n_logg self ≤ 3)) as [Hjg|Hjg].
  { unfold find_derivs. cbn [fst snd].
    destruct (np_getitem_wrap (Teff_axis self) 7) as [? ->]; [lia|].
    rewrite bind_Ok_l.
    by rewrite (np_getitem_out (logg_axis self) 3) by lia. }
  destruct (decide (n_Teff self = 8)) as [H8|H8].
  { replace (7, 3) with (n_Teff self - 1, 3) by (f_equal; lia).
    apply (find_derivs_last_Teff_row nodes_list true self 3 true Hc); lia. }
  replace (7, 3) with (7, n_logg self - 1) by (f_equal; lia).
  apply (find_derivs_last_logg_column nodes_list true self 7 true Hc); lia.
Qed.

(** X16.  The script on a non-empty list of files, whose grid it builds with
    [debug] on: it completes, with the topology text and the four diagonal
    occupancies around cell [(7, 3)], exactly when the grid has more than 8
    temperatures and more than 4 gravities; otherwise it ends with the
    [IndexError] of [find_derivs((7, 3))]. *)
Theorem X16_script_outcome (nodes_list : list Node) (self : Grid) :
  Grid_init nodes_list true = Ok self →
  (8 < n_Teff self ∧ 4 < n_logg self →
   main nodes_list =
     Ok (topology_text self,
         [[occupied self 6 2; occupied self 8 2];
          [occupied self 6 4; occupied self 8 4]])) ∧
  (¬ (8 < n_Teff self ∧ 4 < n_logg self) → main nodes_list = Raise IndexError).
Proof.
  intros Hinit.
  assert (nodes_list ≠ []) as Hne by (by intros ->).
  unfold main. destruct (len nodes_list =? 0) eqn:Hlen.
  { by apply len_zero_nil in Hlen. }
  rewrite Hinit, bind_Ok_l. apply Grid_init_Ok_inv in Hinit.
  rewrite (show_topology_constructed _ _ _ Hinit), bind_Ok_l.
  rewrite (find_derivs_7_3 nodes_list self Hinit).
  by destruct (decide (8 < n_Teff self ∧ 4 < n_logg self)).
Qed.

Lemma X16_script_outcome_witness :
  (8 < n_Teff (full_grid true) ∧ 4 < n_logg (full_grid true) →
   main full_nodes =
     Ok (topology_text (full_grid true),
         [[occupied (full_grid true) 6 2; occupied (full_grid true) 8 2];
          [occupied (full_grid true) 6 4; occupied (full_grid true) 8 4]])) ∧
  (¬ (8 < n_Teff (full_grid true) ∧ 4 < n_logg (full_grid true)) →
   main full_nodes = Raise IndexError).
Proof.
  apply (X16_script_outcome full_nodes (full_grid true)).
  vm_compute. reflexivity.
Defined.

Lemma read_nodes_cases (Node_init : string → result Node)
    (filenames : list string) :
  (∃ nodes_list, read_nodes Node_init filenames = Ok nodes_list ∧
                 length nodes_list = length filenames) ∨
  (∃ filename, filename ∈ filenames ∧
     ((∃ e, Node_init filename = Raise e ∧
            read_nodes Node_init filenames = Raise e) ∨
      (Node_init filename = Diverge ∧
       read_nodes Node_init filenames = Diverge))).
Proof.
  induction filenames as [|f fs IH]; simpl.
  { left. by exists []. }
  destruct (Node_init f) as [nd|e|] eqn:Hf; simpl.
  - destruct IH as [(nds & -> & Hlen)|(f' & Hf' & Hfail)]; simpl.
    + left. exists (nd :: nds). simpl. by rewrite Hlen.
    + right. exists f'. split; [by right|].
      destruct Hfail as [(e & He & ->)|[Hd ->]]; [left; eauto|by right].
  - right. exists f. split; [by left|]. left. eauto.
  - right. exists f. split; [by left|]. by right.
Qed.

(** X17.  The outcomes of the script.  Without file names it raises its own
    syntax exception, so the ['Empty grid'] exception of the constructor is
    never reached from the script.  With file names, either some file cannot
    be read and the script ends with the reader's exception, or all files are
    read and the script completes or ends with [IndexError]. *)
Theorem X17_script_outcomes (Node_init : string → result Node)
    (filenames : list string) :
  (filenames = [] ∧
   script Node_init filenames = Raise (Exception "Syntax: grid.py [filename list]")) ∨
  (filenames ≠ [] ∧
   ((∃ nodes_list, read_nodes Node_init filenames = Ok nodes_list ∧
       script Node_init filenames = main nodes_list ∧
       (script Node_init filenames = Raise IndexError ∨
        ∃ out, script Node_init filenames = Ok out)) ∨
    (∃ filename, filename ∈ filenames ∧
       ((∃ e, Node_init filename = Raise e ∧
              script Node_init filenames = Raise e) ∨
        (Node_init filename = Diverge ∧
         script Node_init filenames = Diverge))))).
Proof.
  destruct (decide (filenames = [])) as [->|Hne]; [by left|]. right.
  split; [done|]. unfold script.
  destruct (len filenames =? 0) eqn:Hlen; [by apply len_zero_nil in Hlen|].
  destruct (read_nodes_cases Node_init filenames)
    as [(nodes_list & -> & Hlen')|(f & Hf & Hfail)].
  - left. exists nodes_list. split; [done|]. rewrite bind_Ok_l.
    assert (nodes_list ≠ []) as Hne'.
    { intros ->. by destruct filenames. }
    assert ((len nodes_list =? 0) = false) as Hlen''.
    { destruct (len nodes_list =? 0) eqn:H0; [|done]. by apply len_zero_nil in H0. }
    split; [unfold main; by rewrite Hlen''|].
    destruct (Grid_init_spec nodes_list true Hne') as (self & -> & Hc).
    rewrite bind_Ok_l, (show_topology_constructed _ _ _ Hc), bind_Ok_l.
    rewrite (find_derivs_7_3 nodes_list self Hc).
    destruct (decide (8 < n_Teff self ∧ 4 < n_logg self)); [right; eauto|by left].
  - right. exists f. split; [done|].
    destruct Hfail as [(e & He & ->)|[Hd ->]]; [left; eauto|by right].
Qed.
